(** * Conway's Game of Life (main.c): a shallow embedding and its properties

    The program keeps two global [int**] boards ([board], [board_w]), the
    side length [sq] and the generation count [g].  Cells are C [int]s
    ([ALIVE] = 1, [DEAD] = 0).  Every array access of the C code is modelled
    by a bounds-checked read or write returning [option]: [None] stands for
    an access outside the allocated rows, which the C program performs
    unchecked.  The board file and the standard output are modelled by a
    small [world] record, which also says whether the allocations of the
    run succeed. *)

From Stdlib Require Import ZArith Ascii String Lia.
From stdpp Require Import base tactics option list list_numbers gmap strings pretty.

Local Open Scope Z_scope.

(** ** C [int] arithmetic *)

Module CInt.

Definition INT_MAX : Z := 2 ^ 31 - 1.
Definition INT_MIN : Z := - 2 ^ 31.

(** Two's complement wrap-around of a mathematical integer to 32 bits. *)
Definition wrap (x : Z) : Z := (x + 2 ^ 31) mod 2 ^ 32 - 2 ^ 31.

Definition add (a b : Z) : Z := wrap (a + b).
Definition sub (a b : Z) : Z := wrap (a - b).

(** The [%] operator: remainder of the division truncated towards zero;
    undefined for a zero divisor. *)
Definition rem (a b : Z) : option Z :=
  if b =? 0 then None else Some (Z.rem a b).

End CInt.

Global Arguments CInt.wrap _ : simpl never.
Global Arguments CInt.add _ _ : simpl never.
Global Arguments CInt.sub _ _ : simpl never.

(** ** Boards *)

Definition ALIVE : Z := 1.
Definition DEAD : Z := 0.

Abbreviation grid := (list (list Z)).

(** [b[i]]: the row pointer at index [i]. *)
Definition row_at (b : grid) (i : Z) : option (list Z) :=
  if i <? 0 then None else b !! Z.to_nat i.

(** [b[i][j]] as an rvalue. *)
Definition cell_at (b : grid) (i j : Z) : option Z :=
  r ← row_at b i;
  if j <? 0 then None else r !! Z.to_nat j.

(** [b[i][j] = v]. *)
Definition set_cell (b : grid) (i j v : Z) : option grid :=
  r ← row_at b i;
  if (0 <=? j) && (j <? Z.of_nat (length r))
  then Some (<[Z.to_nat i := <[Z.to_nat j := v]> r]> b)
  else None.

(** The four globals of main.c. *)
Record state : Type := State {
  board : grid;
  board_w : grid;
  sq : Z;
  g : Z
}.

Definition with_board (st : state) (b : grid) : state :=
  {| board := b; board_w := board_w st; sq := sq st; g := g st |}.

Definition with_board_w (st : state) (b : grid) : state :=
  {| board := board st; board_w := b; sq := sq st; g := g st |}.

(** ** Loops *)

(** Runs [body] once per element of [l], in order, stopping at the first
    failure. *)
Fixpoint run_over {S A : Type} (body : A → S → option S) (l : list A) (s : S)
  : option S :=
  match l with
  | [] => Some s
  | x :: l' => s' ← body x s; run_over body l' s'
  end.

(** [for(int i = 0; i < bound; i++) body]: the body changes neither [i]
    nor the bound, so the loop runs it for i = 0, ..., bound - 1. *)
Definition for_int {S : Type} (bound : Z) (body : Z → S → option S) (s : S)
  : option S :=
  run_over body (seqZ 0 bound) s.

(** ** Cell updates *)

Definition kill_cell (i j : Z) (st : state) : option state :=
  b ← set_cell (board st) i j DEAD; Some (with_board st b).

Definition produce_cell (i j : Z) (st : state) : option state :=
  b ← set_cell (board st) i j ALIVE; Some (with_board st b).

(** ** Neighbour counting *)

(** [(k-1+sq)%sq] and [(k+1+sq)%sq]. *)
Definition idx_prev (n k : Z) : option Z :=
  CInt.rem (CInt.add (CInt.sub k 1) n) n.

Definition idx_next (n k : Z) : option Z :=
  CInt.rem (CInt.add (CInt.add k 1) n) n.

Definition count_neighbors (st : state) (i j : Z) : option Z :=
  let bw := board_w st in
  im ← idx_prev (sq st) i;
  ip ← idx_next (sq st) i;
  jm ← idx_prev (sq st) j;
  jp ← idx_next (sq st) j;
  up ← cell_at bw im j;
  down ← cell_at bw ip j;
  left ← cell_at bw i jm;
  right ← cell_at bw i jp;
  ll ← cell_at bw ip jm;
  lr ← cell_at bw ip jp;
  ul ← cell_at bw im jm;
  ur ← cell_at bw im jp;
  Some (CInt.add (CInt.add (CInt.add (CInt.add (CInt.add (CInt.add
         (CInt.add up down) left) right) ll) lr) ul) ur).

(** ** Copying *)

(** [memcpy(dst, src, n*sizeof(int))] on two rows. *)
Definition memcpy_row (dst src : list Z) (n : Z) : option (list Z) :=
  if (n <=? Z.of_nat (length src)) && (n <=? Z.of_nat (length dst))
  then Some (take (Z.to_nat n) src ++ drop (Z.to_nat n) dst)
  else None.

Definition copy_row (n : Z) (src : grid) (i : Z) (dst : grid) : option grid :=
  d ← row_at dst i;
  s ← row_at src i;
  r ← memcpy_row d s n;
  Some (<[Z.to_nat i := r]> dst).

Definition copy_board (n : Z) (src dst : grid) : option grid :=
  for_int n (copy_row n src) dst.

(** ** One generation: the body of the [gcounter] loop up to the cell loops *)

(** Body of the innermost loop of [loop_board]. *)
Definition update_cell (i j : Z) (st : state) : option state :=
  n ← count_neighbors st i j;
  if n <? 2 then kill_cell i j st
  else
    c ← cell_at (board_w st) i j;
    if (c =? DEAD) && (n =? 3) then produce_cell i j st
    else if (n <? 4) && (1 <? n) then Some st
    else if 3 <? n then kill_cell i j st
    else Some st.

Definition update_row (i : Z) (st : state) : option state :=
  for_int (sq st) (update_cell i) st.

Definition update_cells (st : state) : option state :=
  for_int (sq st) update_row st.

(** [copy_board(board, board_w)] followed by the two cell loops. *)
Definition step (st : state) : option state :=
  bw ← copy_board (sq st) (board st) (board_w st);
  update_cells (with_board_w st bw).

(** ** The outside world: files and output *)

Inductive event : Type :=
  | EPrint (text : string)
  | ESleep (seconds : Z)
  | EWrite (fname : string) (data : list ascii).

(** [files]: the content of the files that exist.  [writable]: whether
    [fopen(.., "w")] succeeds.  [allocates]: whether the [malloc] calls of
    the run return memory (the program never tests their result).
    [trace]: what the run has done so far. *)
Record world : Type := World {
  files : gmap string (list ascii);
  writable : bool;
  allocates : bool;
  trace : list event
}.

Definition emit (e : event) (w : world) : world :=
  {| files := files w; writable := writable w; allocates := allocates w;
     trace := trace w ++ [e] |}.

Definition store (fname : string) (data : list ascii) (w : world) : world :=
  {| files := <[fname := data]> (files w); writable := writable w;
     allocates := allocates w;
     trace := trace w ++ [EWrite fname data] |}.

Definition nl : ascii := ascii_of_nat 10.
Definition ch_alive : ascii := "#"%char.
Definition ch_dead : ascii := "-"%char.

(** ** Writing the board *)

(** The inner loop body of [write_board].  The local [symbol] is declared
    without an initial value and assigned only for ALIVE and DEAD cells;
    [fputc] of a never-assigned [symbol] has no defined result. *)
Definition write_cell (b : grid) (i j : Z) (acc : option ascii * list ascii)
  : option (option ascii * list ascii) :=
  c ← cell_at b i j;
  let symbol :=
    if c =? ALIVE then Some ch_alive
    else if c =? DEAD then Some ch_dead
    else acc.1 in
  s ← symbol;
  Some (Some s, acc.2 ++ [s]).

Definition write_row (n : Z) (b : grid) (i : Z) (acc : option ascii * list ascii)
  : option (option ascii * list ascii) :=
  acc' ← for_int n (write_cell b i) acc;
  Some (acc'.1, acc'.2 ++ [nl]).

(** The characters [write_board] sends to the file. *)
Definition board_text (n : Z) (b : grid) : option (list ascii) :=
  acc ← for_int n (write_row n b) (None, []);
  Some acc.2.

Definition write_board (fname : string) (st : state) (w : world) : option world :=
  if writable w then
    data ← board_text (sq st) (board st);
    Some (store fname data w)
  else
    Some (emit (EPrint ("Error opening " ++ fname ++ " for writing.")%string) w).

(** ** Reading the board *)

(** The [while((ch = fgetc(fp)) != EOF)] loop.  [ch] is a [char]; with a
    signed [char] the byte 255 compares equal to [EOF] and ends the loop
    like the end of the file does. *)
Fixpoint read_chars (cs : list ascii) (x y : Z) (b : grid) : option grid :=
  match cs with
  | [] => Some b
  | ch :: cs' =>
      if Ascii.eqb ch (ascii_of_nat 255) then Some b
      else if Ascii.eqb ch nl then read_chars cs' 0 (CInt.add y 1) b
      else
        b' ← (if Ascii.eqb ch ch_dead then set_cell b x y DEAD
              else if Ascii.eqb ch ch_alive then set_cell b x y ALIVE
              else Some b);
        read_chars cs' (CInt.add x 1) y b'
  end.

(** [fopen] of a missing file gives a null stream, on which [fgetc] is
    undefined. *)
Definition read_board (fname : string) (st : state) (w : world) : option state :=
  cs ← files w !! fname;
  b ← read_chars cs 0 0 (board st);
  Some (with_board st b).

(** ** Allocation *)

(** The two boards [create_board] builds when every [malloc] returns
    memory: [sq] rows of [sq] zeroed cells (no row for [sq <= 0]). *)
Definition create_board (st : state) : state :=
  let zeros := replicate (Z.to_nat (sq st)) (replicate (Z.to_nat (sq st)) 0) in
  {| board := zeros; board_w := zeros; sq := sq st; g := g st |}.

(** The call [create_board()] in a world.  None of its 2 * sq + 2 [malloc]
    results is tested: when an allocation fails and there is a row to set
    up ([sq > 0]), the next store or [memset] goes through a null pointer.
    For [sq <= 0] no allocated block is touched here. *)
Definition alloc_boards (st : state) (w : world) : option state :=
  if (0 <? sq st) && negb (allocates w) then None else Some (create_board st).

(** ** The generation loop *)

(** One iteration of the [gcounter] loop.  [sleep(.75)] converts its
    argument to [unsigned int], that is 0. *)
Definition generation (_ : Z) (sw : state * world) : option (state * world) :=
  st ← step sw.1;
  w ← write_board "board" st (emit (ESleep 0) sw.2);
  Some (st, w).

Definition loop_board (st : state) (w : world) : option (state * world) :=
  for_int (g st) generation (st, w).

(** ** Command line *)

Definition is_space (c : ascii) : bool :=
  let n := Z.of_nat (nat_of_ascii c) in
  (n =? 32) || ((9 <=? n) && (n <=? 13)).

Definition digit_of (c : ascii) : option Z :=
  let n := Z.of_nat (nat_of_ascii c) in
  if (48 <=? n) && (n <=? 57) then Some (n - 48) else None.

Fixpoint skip_spaces (s : string) : string :=
  match s with
  | String c s' => if is_space c then skip_spaces s' else s
  | EmptyString => s
  end.

Fixpoint digits (s : string) (acc : Z) : Z :=
  match s with
  | String c s' =>
      match digit_of c with
      | Some d => digits s' (10 * acc + d)
      | None => acc
      end
  | EmptyString => acc
  end.

Definition LONG_MAX : Z := 2 ^ 63 - 1.
Definition LONG_MIN : Z := - 2 ^ 63.

(** [strtol(s, NULL, 10)]: optional white space, optional sign, then the
    longest run of decimal digits (0 when there is none); a value outside
    [long] is replaced by [LONG_MAX] or [LONG_MIN]. *)
Definition strtol (s : string) : Z :=
  let v := match skip_spaces s with
           | String "-"%char s' => - digits s' 0
           | String "+"%char s' => digits s' 0
           | s' => digits s' 0
           end in
  Z.max LONG_MIN (Z.min LONG_MAX v).

(** [atoi] as the GNU C library has it: [(int) strtol(s, NULL, 10)].  The
    conversion to [int] keeps the low 32 bits, so every digit string
    beyond [LONG_MAX] is read as -1. *)
Definition atoi (s : string) : Z := CInt.wrap (strtol s).

Definition usage : string :=
  String.append "Usage:"
    (String nl (String (ascii_of_nat 9)
       (String.append " ./main.o (int)SQUARE (int)GENERATIONS" (String nl EmptyString)))).

(** The globals once [main] has read its two arguments: no board yet. *)
Definition initial (a1 a2 : string) : state :=
  {| board := []; board_w := []; sq := atoi a1; g := atoi a2 |}.

(** [main]: the exit status and the world it leaves; [None] when the run
    performs an access with no defined behaviour. *)
Definition main (argv : list string) (w : world) : option (Z * world) :=
  match argv with
  | [_; a1; a2] =>
      st ← alloc_boards (initial a1 a2) w;
      st ← read_board "board" st w;
      sw ← loop_board st w;
      w' ← write_board "board" sw.1 sw.2;
      Some (0, w')
  | _ => Some (1, emit (EPrint usage) w)
  end.

(** ** Well-formed boards and states *)

(** [n] rows of [n] cells each. *)
Definition dims (n : Z) (b : grid) : Prop :=
  length b = Z.to_nat n ∧ Forall (λ r : list Z, length r = Z.to_nat n) b.

(** Every cell is DEAD or ALIVE. *)
Definition binary (b : grid) : Prop :=
  Forall (Forall (λ c : Z, c = DEAD ∨ c = ALIVE)) b.

(** A side length for which the two boards can exist and for which the
    index arithmetic [k+1+sq] stays within [int]. *)
Definition size_ok (n : Z) : Prop := 0 < n < 2 ^ 30.

Record wf (st : state) : Prop := Wf {
  wf_size : size_ok (sq st);
  wf_board : dims (sq st) (board st);
  wf_board_w : dims (sq st) (board_w st);
  wf_binary : binary (board st)
}.

(** Boolean versions, for concrete boards. *)
Definition dimsb (n : Z) (b : grid) : bool :=
  (Z.of_nat (length b) =? n) && forallb (λ r : list Z, Z.of_nat (length r) =? n) b.

Definition binaryb (b : grid) : bool :=
  forallb (forallb (λ c : Z, (c =? DEAD) || (c =? ALIVE))) b.

Definition wfb (st : state) : bool :=
  (0 <? sq st) && (sq st <? 2 ^ 30) && dimsb (sq st) (board st)
  && dimsb (sq st) (board_w st) && binaryb (board st).

(** ** The update as the specification words it *)

(** Reading a cell of a board known to hold it. *)
Definition cell (b : grid) (i j : Z) : Z := default 0 (cell_at b i j).

Global Arguments cell _ _ _ : simpl never.

(** The sum of the eight Moore neighbours, both coordinates taken modulo
    the side length. *)
Definition moore_count (n : Z) (b : grid) (i j : Z) : Z :=
  cell b ((i - 1) mod n) j + cell b ((i + 1) mod n) j
  + cell b i ((j - 1) mod n) + cell b i ((j + 1) mod n)
  + cell b ((i + 1) mod n) ((j - 1) mod n) + cell b ((i + 1) mod n) ((j + 1) mod n)
  + cell b ((i - 1) mod n) ((j - 1) mod n) + cell b ((i - 1) mod n) ((j + 1) mod n).

(** The four rules, in the order the specification gives them. *)
Definition rule (c k : Z) : Z :=
  if k <? 2 then DEAD
  else if (c =? DEAD) && (k =? 3) then ALIVE
  else if (k =? 2) || (k =? 3) then c
  else DEAD.

(** The simultaneous update: every cell of the snapshot goes through
    [rule] on its own. *)
Definition pure_step (n : Z) (b : grid) : grid :=
  imap (λ i r, imap (λ j c, rule c (moore_count n b (Z.of_nat i) (Z.of_nat j))) r) b.

(** All cells of an [n] by [n] board in row-major order. *)
Definition row_major (n : Z) : list (Z * Z) :=
  i ← seqZ 0 n; (λ j, (i, j)) <$> seqZ 0 n.

(** The state right after [copy_board(board, board_w)]. *)
Definition snapshot (st : state) : state := with_board_w st (board st).

(** What [write_board] produces for a board of ALIVE and DEAD cells. *)
Definition symbol_of (c : Z) : ascii := if c =? ALIVE then ch_alive else ch_dead.

Definition render (b : grid) : list ascii :=
  r ← b; (symbol_of <$> r) ++ [nl].

(** The [n] by [n] board whose cell (i, j) is [f i j]. *)
Definition tabulate (n : Z) (f : Z → Z → Z) : grid :=
  (λ i, (λ j, f i j) <$> seqZ 0 n) <$> seqZ 0 n.

(** Rows and columns exchanged. *)
Definition transpose (n : Z) (b : grid) : grid :=
  tabulate n (λ i j, cell b j i).

(** ** The cell loops seen as one traversal *)

(** The innermost loop body at a cell given as a pair. *)
Definition update_at (p : Z * Z) (st : state) : option state :=
  update_cell p.1 p.2 st.

(** The next state of cell (i, j) of the snapshot [s]. *)
Definition next_cell (n : Z) (s : grid) (i j : Z) : Z :=
  rule (cell s i j) (moore_count n s i j).

Definition in_board (n : Z) (p : Z * Z) : Prop :=
  0 <= p.1 < n ∧ 0 <= p.2 < n.

(** The state in the middle of the cell loops started in [st0]: the cells
    in [visited] hold their next state, the others still their old one;
    nothing else has changed. *)
Definition partly_updated (st0 : state) (visited : list (Z * Z)) (st : state) : Prop :=
  sq st = sq st0 ∧ g st = g st0 ∧ board_w st = board_w st0
  ∧ dims (sq st0) (board st)
  ∧ ∀ i j, 0 <= i < sq st0 → 0 <= j < sq st0 →
      cell_at (board st) i j =
        Some (if decide ((i, j) ∈ visited)
              then next_cell (sq st0) (board_w st0) i j
              else cell (board_w st0) i j).

(** ** Particular boards *)

(** A board whose only ALIVE cell is (0, 0). *)
Definition lone_origin (n : Z) (b : grid) : Prop :=
  ∀ i j, 0 <= i < n → 0 <= j < n →
    cell b i j = if (i =? 0) && (j =? 0) then ALIVE else DEAD.

(** The count of (i, j) is defined and includes at least one ALIVE cell. *)
Definition counts_some (st : state) (p : Z * Z) : Prop :=
  ∃ k, count_neighbors st p.1 p.2 = Some k ∧ 1 <= k.

(** [k] generations in a row, without the file output. *)
Fixpoint steps (k : nat) (st : state) : option state :=
  match k with
  | O => Some st
  | S k' => st' ← step st; steps k' st'
  end.

(** The 2 by 2 block with upper left cell (r, c); it wraps at the edges. *)
Definition in_pair (n r x : Z) : bool := (x =? r) || (x =? (r + 1) mod n).

Definition is_block (n r c : Z) (b : grid) : Prop :=
  ∀ i j, 0 <= i < n → 0 <= j < n →
    cell b i j = if in_pair n r i && in_pair n c j then ALIVE else DEAD.

(** Three cells in a line with middle cell (r, c), along the row or along
    the column; the line wraps at the edges. *)
Definition in_triple (n c x : Z) : bool :=
  (x =? (c - 1) mod n) || (x =? c) || (x =? (c + 1) mod n).

Definition is_row_blinker (n r c : Z) (b : grid) : Prop :=
  ∀ i j, 0 <= i < n → 0 <= j < n →
    cell b i j = if (i =? r) && in_triple n c j then ALIVE else DEAD.

Definition is_col_blinker (n r c : Z) (b : grid) : Prop :=
  ∀ i j, 0 <= i < n → 0 <= j < n →
    cell b i j = if in_triple n r i && (j =? c) then ALIVE else DEAD.

(** ** Runs *)

(** The board [k] simultaneous updates after the one of [st0]. *)
Definition board_after (st0 : state) (k : nat) : grid :=
  Nat.iter k (pure_step (sq st0)) (board st0).

(** What [k] iterations of the [gcounter] loop append to the trace. *)
Definition written (st0 : state) (k : nat) : list event :=
  k' ← seq 1 k; [ESleep 0; EWrite "board" (render (board_after st0 k'))].

(** State and world after [k] iterations of the [gcounter] loop started in
    [st0] and [w0]. *)
Definition after (st0 : state) (w0 : world) (k : nat) (sw : state * world) : Prop :=
  wf sw.1 ∧ sq sw.1 = sq st0 ∧ g sw.1 = g st0
  ∧ board sw.1 = board_after st0 k
  ∧ (∀ k', k = S k' → board_w sw.1 = board_after st0 k')
  ∧ (k = 0%nat → sw = (st0, w0))
  ∧ writable sw.2 = true
  ∧ (∀ k', k = S k' →
       files sw.2 = <["board"%string := render (board_after st0 k)]> (files w0))
  ∧ trace sw.2 = trace w0 ++ written st0 k.

(** ** Concrete boards and runs *)

(** The state [main] reaches once a board has been loaded. *)
Definition loaded (n gens : Z) (b : grid) : state :=
  {| board := b;
     board_w := replicate (Z.to_nat n) (replicate (Z.to_nat n) 0);
     sq := n; g := gens |}.

(** A world whose board file holds [text]. *)
Definition world_with (text : list ascii) : world :=
  {| files := {[ "board"%string := text ]}; writable := true;
     allocates := true; trace := [] |}.

Definition blinker3 : grid := [[0; 0; 0]; [1; 1; 1]; [0; 0; 0]].

Definition full3 : grid := [[1; 1; 1]; [1; 1; 1]; [1; 1; 1]].

Definition column3 : grid := [[0; 1; 0]; [0; 1; 0]; [0; 1; 0]].

Definition blinker5 : grid :=
  [[0; 0; 0; 0; 0]; [0; 0; 0; 0; 0]; [0; 1; 1; 1; 0]; [0; 0; 0; 0; 0]; [0; 0; 0; 0; 0]].

Definition column5 : grid :=
  [[0; 0; 0; 0; 0]; [0; 0; 1; 0; 0]; [0; 0; 1; 0; 0]; [0; 0; 1; 0; 0]; [0; 0; 0; 0; 0]].

(** A block lying across the four corners of a 4 by 4 board. *)
Definition corners4 : grid :=
  [[1; 0; 0; 1]; [0; 0; 0; 0]; [0; 0; 0; 0]; [1; 0; 0; 1]].

Definition origin3 : grid := [[1; 0; 0]; [0; 0; 0]; [0; 0; 0]].

(** A board that is not its own transpose, and what reading its file back
    gives. *)
Definition skew2 : grid := [[0; 1]; [0; 0]].

Definition skew2_read : grid := [[0; 0]; [1; 0]].

(** ** Printing the board *)

(** [printf("%d", b[i][j])]: the cell in decimal. *)
Definition print_cell (b : grid) (i j : Z) (w : world) : option world :=
  c ← cell_at b i j; Some (emit (EPrint (pretty c)) w).

(** One row of [print_board]: the cells, then [printf("\n")]. *)
Definition print_row (n : Z) (b : grid) (i : Z) (w : world) : option world :=
  w' ← for_int n (print_cell b i) w;
  Some (emit (EPrint (String nl EmptyString)) w').

Definition print_board (b : grid) (st : state) (w : world) : option world :=
  for_int (sq st) (print_row (sq st) b) w.

(** The characters sent to the standard output along a trace. *)
Definition stdout (tr : list event) : list ascii :=
  e ← tr; match e with EPrint s => list_ascii_of_string s | _ => [] end.

(** The digit [print_board] shows where [write_board] writes a symbol. *)
Definition digit_of_symbol (ch : ascii) : ascii :=
  if Ascii.eqb ch ch_alive then "1"%char
  else if Ascii.eqb ch ch_dead then "0"%char else ch.

(** ** Moving a board around the torus *)

(** The board whose cell (i, j) is cell (i + a, j + c) of [b], coordinates
    taken modulo the side. *)
Definition shift (n a c : Z) (b : grid) : grid :=
  tabulate n (λ i j, cell b ((i + a) mod n) ((j + c) mod n)).

(** ** Runs without write access *)

(** The message of [write_board] when [fopen] fails. *)
Definition open_error (fname : string) : string :=
  ("Error opening " ++ fname ++ " for writing.")%string.

(** What one iteration of the [gcounter] loop adds to the trace then. *)
Definition failed_write : list event := [ESleep 0; EPrint (open_error "board")].

(** State and world after the iterations [pre] of the [gcounter] loop
    started in [st0] and [w0], the board file being closed to writes. *)
Definition after_failed (st0 : state) (w0 : world) (pre : list Z)
    (sw : state * world) : Prop :=
  wf sw.1 ∧ sq sw.1 = sq st0 ∧ g sw.1 = g st0
  ∧ board sw.1 = board_after st0 (length pre)
  ∧ writable sw.2 = false ∧ files sw.2 = files w0
  ∧ trace sw.2 = trace w0 ++ (pre ≫= λ _, failed_write).

(** ** Runs in general *)

(** A state as [main] may load it: boards of the side [sq], which may be
    zero or negative (the boards have no cell then). *)
Definition loadable (st : state) : Prop :=
  sq st < 2 ^ 30 ∧ dims (sq st) (board st) ∧ dims (sq st) (board_w st)
  ∧ binary (board st).

(** What [write_board] does to the world for a board of DEAD and ALIVE
    cells: the file is replaced, or the error message printed. *)
Definition put_board (fname : string) (b : grid) (w : world) : world :=
  if writable w then store fname (render b) w
  else emit (EPrint (open_error fname)) w.

(** The world after [k] iterations of the [gcounter] loop started in [st0]
    and [w0]: each iteration pauses and calls [write_board]. *)
Fixpoint world_after (st0 : state) (w0 : world) (k : nat) : world :=
  match k with
  | O => w0
  | S k' => put_board "board" (board_after st0 k)
              (emit (ESleep 0) (world_after st0 w0 k'))
  end.

Definition after_any (st0 : state) (w0 : world) (pre : list Z)
    (sw : state * world) : Prop :=
  loadable sw.1 ∧ sq sw.1 = sq st0 ∧ g sw.1 = g st0
  ∧ board sw.1 = board_after st0 (length pre)
  ∧ sw.2 = world_after st0 w0 (length pre).

(** A world whose board file holds [text] and cannot be opened for
    writing. *)
Definition world_readonly (text : list ascii) : world :=
  {| files := {[ "board"%string := text ]}; writable := false;
     allocates := true; trace := [] |}.

(** ** Proof automation *)

(** Decides every integer comparison of the goal that has no conditional
    inside. *)
Ltac split_eqb :=
  repeat match goal with
         | |- context [Z.eqb ?x ?y] =>
             lazymatch x with context [if _ then _ else _] => fail | _ => idtac end;
             lazymatch y with context [if _ then _ else _] => fail | _ => idtac end;
             destruct (Z.eqb_spec x y); cbn [orb andb xorb negb]; try lia
         end.

Ltac blinker_cases R1 R2 R3 C2 :=
  first [ reflexivity
        | discriminate R1 | discriminate R2 | discriminate R3
        | specialize (C2 eq_refl); discriminate C2 ].

(** * Properties *)

(** ** Integer arithmetic within range *)

Lemma wrap_small (x : Z) : CInt.INT_MIN <= x <= CInt.INT_MAX → CInt.wrap x = x.
Proof.
  unfold CInt.INT_MIN, CInt.INT_MAX, CInt.wrap. intros Hx.
  rewrite Z.mod_small; lia.
Qed.

Lemma add_small (a b : Z) : - 2 ^ 31 <= a + b < 2 ^ 31 → CInt.add a b = a + b.
Proof.
  intros H. apply wrap_small. unfold CInt.INT_MIN, CInt.INT_MAX. lia.
Qed.

Lemma sub_small (a b : Z) : - 2 ^ 31 <= a - b < 2 ^ 31 → CInt.sub a b = a - b.
Proof.
  intros H. apply wrap_small. unfold CInt.INT_MIN, CInt.INT_MAX. lia.
Qed.

Lemma idx_prev_ok (n k : Z) :
  size_ok n → 0 <= k < n → idx_prev n k = Some ((k - 1) mod n).
Proof.
  unfold size_ok, idx_prev, CInt.rem. intros Hn Hk.
  rewrite sub_small by lia. rewrite add_small by lia.
  destruct (Z.eqb_spec n 0) as [->|_]; [lia|].
  rewrite Z.rem_mod_nonneg by lia.
  f_equal. replace (k - 1 + n) with (k - 1 + 1 * n) by lia.
  apply Z_mod_plus_full.
Qed.

Lemma idx_next_ok (n k : Z) :
  size_ok n → 0 <= k < n → idx_next n k = Some ((k + 1) mod n).
Proof.
  unfold size_ok, idx_next, CInt.rem. intros Hn Hk.
  rewrite !add_small by (try rewrite add_small; lia).
  destruct (Z.eqb_spec n 0) as [->|_]; [lia|].
  rewrite Z.rem_mod_nonneg by lia.
  f_equal. replace (k + 1 + n) with (k + 1 + 1 * n) by lia.
  apply Z_mod_plus_full.
Qed.

(** The wrapped neighbours of an index, without division. *)
Lemma mod_prev (n k : Z) :
  0 < n → 0 <= k < n → (k - 1) mod n = if k =? 0 then n - 1 else k - 1.
Proof.
  intros Hn Hk. destruct (Z.eqb_spec k 0) as [->|Hne].
  - replace (0 - 1) with (n - 1 + (-1) * n) by lia.
    rewrite Z_mod_plus_full. apply Z.mod_small. lia.
  - apply Z.mod_small. lia.
Qed.

Lemma mod_next (n k : Z) :
  0 < n → 0 <= k < n → (k + 1) mod n = if k + 1 =? n then 0 else k + 1.
Proof.
  intros Hn Hk. destruct (Z.eqb_spec (k + 1) n) as [->|Hne].
  - apply Z_mod_same_full.
  - apply Z.mod_small. lia.
Qed.

(** ** Bounds-checked access *)

Lemma dimsb_spec (n : Z) (b : grid) : dimsb n b = true → dims n b.
Proof.
  unfold dimsb, dims. rewrite andb_true_iff, forallb_forall, Forall_forall.
  intros [Hl Hr]. apply Z.eqb_eq in Hl. split; [lia|].
  intros r Hin. apply list_elem_of_In, Hr, Z.eqb_eq in Hin. lia.
Qed.

Lemma binaryb_spec (b : grid) : binaryb b = true → binary b.
Proof.
  unfold binaryb, binary. rewrite forallb_forall, Forall_forall.
  intros H r Hr. apply list_elem_of_In, H in Hr.
  rewrite forallb_forall in Hr. apply Forall_forall.
  intros c Hc. apply list_elem_of_In, Hr, orb_true_iff in Hc.
  rewrite !Z.eqb_eq in Hc. done.
Qed.

Lemma wfb_spec (st : state) : wfb st = true → wf st.
Proof.
  unfold wfb. rewrite !andb_true_iff.
  intros [[[[H1 H2] H3] H4] H5].
  apply Z.ltb_lt in H1, H2.
  split; [split; done | by apply dimsb_spec .. | by apply binaryb_spec].
Qed.

Lemma row_at_dims (n : Z) (b : grid) (i : Z) :
  dims n b → 0 <= i < n → ∃ r, row_at b i = Some r ∧ length r = Z.to_nat n.
Proof.
  intros [Hl Hr] Hi. unfold row_at.
  destruct (Z.ltb_spec i 0); [lia|].
  destruct (lookup_lt_is_Some_2 b (Z.to_nat i)) as [r Hlk]; [lia|].
  exists r. split; [done|].
  rewrite Forall_forall in Hr. apply Hr. by eapply list_elem_of_lookup_2.
Qed.

Lemma cell_at_dims (n : Z) (b : grid) (i j : Z) :
  dims n b → 0 <= i < n → 0 <= j < n → cell_at b i j = Some (cell b i j).
Proof.
  intros Hd Hi Hj. unfold cell, cell_at.
  destruct (row_at_dims n b i Hd Hi) as (r & -> & Hlen). simpl.
  destruct (Z.ltb_spec j 0); [lia|].
  destruct (lookup_lt_is_Some_2 r (Z.to_nat j)) as [c ->]; [lia|]. done.
Qed.

Lemma cell_at_range (n : Z) (b : grid) (i j c : Z) :
  dims n b → cell_at b i j = Some c → 0 <= i < n ∧ 0 <= j < n.
Proof.
  intros [Hl Hr] H. unfold cell_at, row_at in H.
  destruct (Z.ltb_spec i 0); [done|].
  destruct (b !! Z.to_nat i) as [r|] eqn:Er; [|done]. simpl in H.
  destruct (Z.ltb_spec j 0); [done|].
  apply lookup_lt_Some in Er as Hi, H as Hj.
  rewrite Forall_forall in Hr.
  rewrite (Hr r) in Hj by (by eapply list_elem_of_lookup_2). lia.
Qed.

Lemma cell_at_binary (b : grid) (i j c : Z) :
  binary b → cell_at b i j = Some c → c = DEAD ∨ c = ALIVE.
Proof.
  intros Hb H. unfold cell_at, row_at in H.
  destruct (i <? 0); [done|].
  destruct (b !! Z.to_nat i) as [r|] eqn:Er; [|done]. simpl in H.
  destruct (j <? 0); [done|].
  unfold binary in Hb. rewrite Forall_forall in Hb.
  specialize (Hb r (list_elem_of_lookup_2 _ _ _ Er)).
  rewrite Forall_forall in Hb. apply Hb. by eapply list_elem_of_lookup_2.
Qed.

Lemma cell_binary (n : Z) (b : grid) (i j : Z) :
  dims n b → binary b → 0 <= i < n → 0 <= j < n →
  cell b i j = DEAD ∨ cell b i j = ALIVE.
Proof.
  intros Hd Hb Hi Hj. eapply cell_at_binary; [done|]. by eapply cell_at_dims.
Qed.

Lemma set_cell_dims (n : Z) (b : grid) (i j v : Z) :
  dims n b → 0 <= i < n → 0 <= j < n →
  ∃ b', set_cell b i j v = Some b' ∧ dims n b'.
Proof.
  intros Hd Hi Hj. unfold set_cell.
  destruct (row_at_dims n b i Hd Hi) as (r & Hr & Hlen). rewrite Hr. simpl.
  destruct (Z.leb_spec 0 j); [|lia].
  destruct (Z.ltb_spec j (Z.of_nat (length r))); [|lia]. simpl.
  eexists. split; [done|]. destruct Hd as [Hl Hrows]. split.
  - by rewrite length_insert.
  - apply Forall_insert; [done|]. by rewrite length_insert.
Qed.

Lemma cell_at_set_cell (b b' : grid) (i j v i' j' : Z) :
  set_cell b i j v = Some b' →
  cell_at b' i' j' = if decide (i' = i ∧ j' = j) then Some v else cell_at b i' j'.
Proof.
  unfold set_cell, cell_at, row_at. intros H.
  destruct (Z.ltb_spec i 0); [done|].
  destruct (b !! Z.to_nat i) as [r|] eqn:Er; [|done]. simpl in H.
  destruct (Z.leb_spec 0 j); [|done].
  destruct (Z.ltb_spec j (Z.of_nat (length r))); [|done].
  simpl in H. injection H as <-.
  apply lookup_lt_Some in Er as Hi.
  destruct (Z.ltb_spec i' 0).
  { case_decide; [lia|done]. }
  destruct (decide (i' = i)) as [->|Hne].
  - rewrite list_lookup_insert_eq by done. simpl.
    destruct (Z.ltb_spec j' 0).
    { case_decide; [lia|]. by rewrite Er. }
    destruct (decide (j' = j)) as [->|Hnj].
    + rewrite list_lookup_insert_eq by lia. case_decide; [done|tauto].
    + rewrite list_lookup_insert_ne by lia. rewrite Er. simpl.
      destruct (Z.ltb_spec j' 0); [lia|]. case_decide; [tauto|done].
  - rewrite list_lookup_insert_ne by lia. case_decide; [tauto|done].
Qed.

Lemma set_cell_binary (b b' : grid) (i j v : Z) :
  binary b → v = DEAD ∨ v = ALIVE → set_cell b i j v = Some b' → binary b'.
Proof.
  unfold set_cell, row_at, binary. intros Hb Hv H.
  destruct (i <? 0); [done|].
  destruct (b !! Z.to_nat i) as [r|] eqn:Er; [|done]. simpl in H.
  destruct ((0 <=? j) && (j <? Z.of_nat (length r))); [|done].
  injection H as <-. apply Forall_insert; [done|].
  apply Forall_insert; [|done].
  rewrite Forall_forall in Hb. apply Hb. by eapply list_elem_of_lookup_2.
Qed.

(** Two boards of the same dimensions with the same cells are equal. *)
Lemma grid_ext (n : Z) (b1 b2 : grid) :
  dims n b1 → dims n b2 →
  (∀ i j, 0 <= i < n → 0 <= j < n → cell_at b1 i j = cell_at b2 i j) →
  b1 = b2.
Proof.
  intros [Hl1 Hr1] [Hl2 Hr2] H. apply list_eq. intros i.
  destruct (decide (i < Z.to_nat n)%nat) as [Hi|Hi].
  - destruct (lookup_lt_is_Some_2 b1 i) as [r1 E1]; [lia|].
    destruct (lookup_lt_is_Some_2 b2 i) as [r2 E2]; [lia|].
    rewrite E1, E2. f_equal. apply list_eq. intros j.
    rewrite Forall_forall in Hr1, Hr2.
    pose proof (Hr1 r1 (list_elem_of_lookup_2 _ _ _ E1)) as L1.
    pose proof (Hr2 r2 (list_elem_of_lookup_2 _ _ _ E2)) as L2.
    destruct (decide (j < Z.to_nat n)%nat) as [Hj|Hj].
    + specialize (H (Z.of_nat i) (Z.of_nat j)).
      unfold cell_at, row_at in H.
      destruct (Z.ltb_spec (Z.of_nat i) 0); [lia|].
      destruct (Z.ltb_spec (Z.of_nat j) 0); [lia|].
      rewrite !Nat2Z.id, E1, E2 in H. simpl in H. apply H; lia.
    + rewrite !lookup_ge_None_2; [done|lia..].
  - rewrite !lookup_ge_None_2; [done|lia..].
Qed.

(** ** Loops *)

Lemma run_over_app {S A : Type} (body : A → S → option S) (l1 l2 : list A) (s : S) :
  run_over body (l1 ++ l2) s = run_over body l1 s ≫= run_over body l2.
Proof.
  revert s. induction l1 as [|x l1 IH]; intros s; simpl; [done|].
  destruct (body x s) as [s'|]; simpl; [apply IH|done].
Qed.

(** Invariant rule: [P pre s] relates the state to the elements already
    processed. *)
Lemma run_over_inv {S A : Type} (P : list A → S → Prop)
    (body : A → S → option S) (l : list A) (s : S) :
  P [] s →
  (∀ pre x s, x ∈ l → P pre s → ∃ s', body x s = Some s' ∧ P (pre ++ [x]) s') →
  ∃ s', run_over body l s = Some s' ∧ P l s'.
Proof.
  intros H0 Hstep.
  enough (∀ k pre s, (∀ x, x ∈ k → x ∈ l) → P pre s →
            ∃ s', run_over body k s = Some s' ∧ P (pre ++ k) s') as Hgen.
  { apply (Hgen l [] s); auto. }
  clear s H0. induction k as [|x k IH]; intros pre s Hsub HP; simpl.
  - exists s. by rewrite app_nil_r.
  - destruct (Hstep pre x s) as (s1 & -> & HP1); [apply Hsub; left|done|].
    simpl. destruct (IH (pre ++ [x]) s1) as (s2 & Hrun & HP2).
    + intros y Hy. apply Hsub. by right.
    + done.
    + exists s2. split; [done|]. by rewrite <- app_assoc in HP2.
Qed.

(** ** Neighbour counting *)

Lemma mod_in_range (n k : Z) : 0 < n → 0 <= k mod n < n.
Proof. intros. by apply Z.mod_pos_bound. Qed.

(** The count before any assumption on the cells' values: eight reads
    within the board, added as [int]s. *)
Lemma count_neighbors_reads (st : state) (i j : Z) :
  size_ok (sq st) → dims (sq st) (board_w st) →
  0 <= i < sq st → 0 <= j < sq st →
  let n := sq st in
  let bw := board_w st in
  count_neighbors st i j =
    Some (CInt.add (CInt.add (CInt.add (CInt.add (CInt.add (CInt.add (CInt.add
      (cell bw ((i - 1) mod n) j) (cell bw ((i + 1) mod n) j))
      (cell bw i ((j - 1) mod n))) (cell bw i ((j + 1) mod n)))
      (cell bw ((i + 1) mod n) ((j - 1) mod n)))
      (cell bw ((i + 1) mod n) ((j + 1) mod n)))
      (cell bw ((i - 1) mod n) ((j - 1) mod n)))
      (cell bw ((i - 1) mod n) ((j + 1) mod n))).
Proof.
  intros Hn Hd Hi Hj n bw. unfold count_neighbors.
  rewrite !idx_prev_ok, !idx_next_ok by done. simpl.
  assert (0 < sq st) as Hpos by (unfold size_ok in Hn; lia).
  pose proof (mod_in_range (sq st) (i - 1) Hpos).
  pose proof (mod_in_range (sq st) (i + 1) Hpos).
  pose proof (mod_in_range (sq st) (j - 1) Hpos).
  pose proof (mod_in_range (sq st) (j + 1) Hpos).
  rewrite !(cell_at_dims (sq st)) by done. done.
Qed.

Lemma count_neighbors_moore (st : state) (i j : Z) :
  size_ok (sq st) → dims (sq st) (board_w st) → binary (board_w st) →
  0 <= i < sq st → 0 <= j < sq st →
  count_neighbors st i j = Some (moore_count (sq st) (board_w st) i j)
  ∧ 0 <= moore_count (sq st) (board_w st) i j <= 8.
Proof.
  intros Hn Hd Hb Hi Hj.
  rewrite count_neighbors_reads by done. cbv zeta. unfold moore_count.
  assert (0 < sq st) as Hpos by (unfold size_ok in Hn; lia).
  pose proof (mod_in_range (sq st) (i - 1) Hpos) as Him.
  pose proof (mod_in_range (sq st) (i + 1) Hpos) as Hip.
  pose proof (mod_in_range (sq st) (j - 1) Hpos) as Hjm.
  pose proof (mod_in_range (sq st) (j + 1) Hpos) as Hjp.
  pose proof (cell_binary _ _ _ _ Hd Hb Him Hj).
  pose proof (cell_binary _ _ _ _ Hd Hb Hip Hj).
  pose proof (cell_binary _ _ _ _ Hd Hb Hi Hjm).
  pose proof (cell_binary _ _ _ _ Hd Hb Hi Hjp).
  pose proof (cell_binary _ _ _ _ Hd Hb Hip Hjm).
  pose proof (cell_binary _ _ _ _ Hd Hb Hip Hjp).
  pose proof (cell_binary _ _ _ _ Hd Hb Him Hjm).
  pose proof (cell_binary _ _ _ _ Hd Hb Him Hjp).
  unfold DEAD, ALIVE in *.
  repeat match goal with
         | |- context [CInt.add ?a ?b] => rewrite (add_small a b) by lia
         end.
  split; [done|lia].
Qed.

(** ** Copying *)

Lemma copy_board_dims (n : Z) (src dst : grid) :
  dims n src → dims n dst → copy_board n src dst = Some src.
Proof.
  intros Hs Hd. unfold copy_board, for_int.
  destruct (run_over_inv
    (λ pre d, dims n d ∧ ∀ i, i ∈ pre → d !! Z.to_nat i = src !! Z.to_nat i)
    (copy_row n src) (seqZ 0 n) dst) as (d & Hrun & Hdims & Hrows).
  - split; [done|]. intros i Hi. by apply elem_of_nil in Hi.
  - intros pre i d Hi [Hdd Hpre]. apply elem_of_seqZ in Hi.
    unfold copy_row.
    destruct (row_at_dims n d i) as (rd & -> & Lrd); [done|lia|].
    destruct (row_at_dims n src i) as (rs & Ers & Lrs); [done|lia|].
    rewrite Ers. simpl. unfold memcpy_row.
    destruct (Z.leb_spec n (Z.of_nat (length rs))); [|lia].
    destruct (Z.leb_spec n (Z.of_nat (length rd))); [|lia].
    simpl. eexists. split; [done|].
    rewrite take_ge, drop_ge, app_nil_r by lia.
    unfold row_at in Ers. destruct (Z.ltb_spec i 0); [lia|].
    destruct Hdd as [Ld Hrd]. split; [split|].
    + by rewrite length_insert.
    + by apply Forall_insert.
    + intros k Hk. apply elem_of_app in Hk as [Hk|Hk].
      * destruct (decide (Z.to_nat i = Z.to_nat k)) as [E|E].
        -- rewrite E. rewrite list_lookup_insert_eq; [by rewrite <- E|lia].
        -- rewrite list_lookup_insert_ne by done. by apply Hpre.
      * apply list_elem_of_singleton in Hk as ->.
        rewrite list_lookup_insert_eq by lia. done.
  - rewrite Hrun. f_equal. apply list_eq. intros k.
    destruct Hdims as [Ld _]. destruct Hs as [Ls _].
    destruct (decide (k < Z.to_nat n)%nat).
    + rewrite <- (Nat2Z.id k). apply Hrows. apply elem_of_seqZ. lia.
    + rewrite !lookup_ge_None_2; [done|lia..].
Qed.

(** ** The cell loops *)

Section CellLoops.

Variable st0 : state.
Hypothesis Hsize : size_ok (sq st0).
Hypothesis Hdims_w : dims (sq st0) (board_w st0).
Hypothesis Hbin_w : binary (board_w st0).

Lemma partly_updated_write (visited : list (Z * Z)) (st : state) (i j v : Z) :
  0 <= i < sq st0 → 0 <= j < sq st0 →
  partly_updated st0 visited st →
  v = next_cell (sq st0) (board_w st0) i j →
  ∃ b', set_cell (board st) i j v = Some b'
        ∧ partly_updated st0 (visited ++ [(i, j)]) (with_board st b').
Proof.
  intros Hi Hj (Hsq & Hg & Hw & Hd & Hcells) ->.
  destruct (set_cell_dims (sq st0) (board st) i j
              (next_cell (sq st0) (board_w st0) i j) Hd Hi Hj) as (b' & Hset & Hd').
  exists b'. split; [done|]. unfold partly_updated; split_and!; try done.
  intros i' j' Hi' Hj'. simpl.
  rewrite (cell_at_set_cell _ _ _ _ _ _ _ Hset).
  case_decide as Heq.
  - destruct Heq as [-> ->]. rewrite decide_True; [done|].
    apply elem_of_app. right. by apply list_elem_of_singleton.
  - rewrite Hcells by done. f_equal.
    destruct (decide ((i', j') ∈ visited)) as [Hin|Hnin].
    + rewrite decide_True; [done|]. apply elem_of_app. by left.
    + rewrite decide_False; [done|]. intros [?|Hs]%elem_of_app; [done|].
      apply list_elem_of_singleton in Hs. injection Hs as -> ->. tauto.
Qed.

Lemma partly_updated_skip (visited : list (Z * Z)) (st : state) (i j : Z) :
  0 <= i < sq st0 → 0 <= j < sq st0 →
  partly_updated st0 visited st →
  next_cell (sq st0) (board_w st0) i j = cell (board_w st0) i j →
  partly_updated st0 (visited ++ [(i, j)]) st.
Proof.
  intros Hi Hj (Hsq & Hg & Hw & Hd & Hcells) Hsame.
  unfold partly_updated; split_and!; try done.
  intros i' j' Hi' Hj'. rewrite Hcells by done. f_equal.
  destruct (decide ((i', j') ∈ visited)) as [Hin|Hnin].
  - rewrite decide_True; [done|]. apply elem_of_app. by left.
  - case_decide as Hin'; [|done].
    apply elem_of_app in Hin' as [?|Hs]; [done|].
    apply list_elem_of_singleton in Hs. injection Hs as -> ->. done.
Qed.

(** One execution of the innermost loop body, at any cell of the board and
    at any point of the traversal. *)
Lemma update_cell_partly (visited : list (Z * Z)) (st : state) (i j : Z) :
  0 <= i < sq st0 → 0 <= j < sq st0 →
  partly_updated st0 visited st →
  ∃ st', update_cell i j st = Some st'
         ∧ partly_updated st0 (visited ++ [(i, j)]) st'.
Proof.
  intros Hi Hj Hpu. pose proof Hpu as (Hsq & Hg & Hw & Hd & Hcells).
  unfold update_cell.
  destruct (count_neighbors_moore st i j) as [-> Hk];
    [rewrite ?Hsq, ?Hw; done..|].
  rewrite Hsq, Hw in *. simpl.
  set (k := moore_count (sq st0) (board_w st0) i j) in *.
  assert (next_cell (sq st0) (board_w st0) i j
          = rule (cell (board_w st0) i j) k) as Hnext by done.
  unfold rule in Hnext.
  destruct (Z.ltb_spec k 2) as [Hk2|Hk2].
  { unfold kill_cell.
    destruct (partly_updated_write visited st i j DEAD) as (b' & -> & Hpu');
      [done..|]. simpl. eauto. }
  rewrite (cell_at_dims (sq st0)) by done. simpl.
  set (c := cell (board_w st0) i j) in *.
  destruct ((c =? DEAD) && (k =? 3)) eqn:Hborn.
  { unfold produce_cell.
    destruct (partly_updated_write visited st i j ALIVE) as (b' & -> & Hpu');
      [done..|]. simpl. eauto. }
  destruct (Z.ltb_spec k 4) as [Hk4|Hk4]; destruct (Z.ltb_spec 1 k) as [Hk1|Hk1];
    try lia; simpl.
  { exists st. split; [done|]. apply partly_updated_skip; [done..|].
    rewrite Hnext. destruct (Z.eqb_spec k 2), (Z.eqb_spec k 3); simpl; try done; lia. }
  destruct (Z.ltb_spec 3 k); [|lia].
  unfold kill_cell.
  destruct (partly_updated_write visited st i j DEAD) as (b' & -> & Hpu');
    [done.. | |].
  { rewrite Hnext. destruct (Z.eqb_spec k 2), (Z.eqb_spec k 3); simpl; try done; lia. }
  simpl. eauto.
Qed.

(** The body applied along any list of cells of the board. *)
Lemma run_over_partly (order : list (Z * Z)) :
  Forall (in_board (sq st0)) order →
  dims (sq st0) (board st0) → board st0 = board_w st0 →
  ∃ st', run_over update_at order st0 = Some st'
         ∧ partly_updated st0 order st'.
Proof.
  intros Hord Hd Hsame.
  apply (run_over_inv (partly_updated st0)).
  - unfold partly_updated; split_and!; try done. intros i j Hi Hj.
    rewrite decide_False by (by intros ?%elem_of_nil).
    rewrite Hsame. by apply (cell_at_dims (sq st0)).
  - intros pre [i j] st Hin Hpu.
    rewrite Forall_forall in Hord. destruct (Hord _ Hin) as [Hi Hj].
    by apply update_cell_partly.
Qed.

End CellLoops.

(** The two nested loops visit the cells in row-major order. *)
Lemma update_cell_sq (i j : Z) (st st' : state) :
  update_cell i j st = Some st' → sq st' = sq st.
Proof.
  unfold update_cell, kill_cell, produce_cell. intros H.
  repeat (simplify_option_eq || case_match); done.
Qed.

Lemma run_over_update_cell_sq (i : Z) (l : list Z) (st st' : state) :
  run_over (update_cell i) l st = Some st' → sq st' = sq st.
Proof.
  revert st. induction l as [|j l IH]; intros st H; simpl in H.
  - by injection H as <-.
  - destruct (update_cell i j st) as [st1|] eqn:E; [|done]. simpl in H.
    rewrite (IH _ H). by eapply update_cell_sq.
Qed.

Lemma run_over_fmap {S A B : Type} (f : A → B) (body : B → S → option S)
    (l : list A) (s : S) :
  run_over body (f <$> l) s = run_over (λ x, body (f x)) l s.
Proof.
  revert s. induction l as [|x l IH]; intros s; simpl; [done|].
  destruct (body (f x) s); simpl; [apply IH|done].
Qed.

Lemma update_rows_row_major (n : Z) (rows : list Z) (st : state) :
  sq st = n →
  run_over update_row rows st
  = run_over update_at (i ← rows; (λ j, (i, j)) <$> seqZ 0 n) st.
Proof.
  revert st. induction rows as [|i rows IH]; intros st Hn; [done|].
  cbn [run_over mbind list_bind]. rewrite run_over_app.
  change (update_row i st) with (run_over (update_cell i) (seqZ 0 (sq st)) st).
  rewrite Hn.
  rewrite run_over_fmap.
  change (λ x : Z, update_at (i, x)) with (update_cell i).
  destruct (run_over (update_cell i) (seqZ 0 n) st) as [st1|] eqn:E; [|done].
  simpl. apply IH. rewrite <- Hn. by eapply run_over_update_cell_sq.
Qed.

Lemma update_cells_row_major (st : state) :
  update_cells st = run_over update_at (row_major (sq st)) st.
Proof. unfold update_cells, for_int, row_major. by apply update_rows_row_major. Qed.

Lemma elem_of_row_major (n i j : Z) :
  (i, j) ∈ row_major n ↔ 0 <= i < n ∧ 0 <= j < n.
Proof.
  unfold row_major. rewrite list_elem_of_bind. split.
  - intros (i' & Hj & Hi). apply elem_of_seqZ in Hi.
    apply list_elem_of_fmap in Hj as (j' & [= -> ->] & Hj).
    apply elem_of_seqZ in Hj. lia.
  - intros [Hi Hj]. exists i. split; [|apply elem_of_seqZ; lia].
    apply list_elem_of_fmap. exists j. split; [done|]. apply elem_of_seqZ. lia.
Qed.

Lemma row_major_in_board (n : Z) : Forall (in_board n) (row_major n).
Proof.
  apply Forall_forall. intros [i j] H. by apply elem_of_row_major in H.
Qed.

(** ** The simultaneous update *)

Lemma pure_step_dims (n : Z) (b : grid) : dims n b → dims n (pure_step n b).
Proof.
  intros [Hl Hr]. unfold pure_step. split.
  - by rewrite length_imap.
  - apply Forall_forall. intros r Hin.
    apply list_elem_of_lookup in Hin as [i Hi].
    rewrite list_lookup_imap in Hi.
    destruct (b !! i) as [r0|] eqn:E; [|done]. simpl in Hi. injection Hi as <-.
    rewrite length_imap. rewrite Forall_forall in Hr. apply Hr.
    by eapply list_elem_of_lookup_2.
Qed.

Lemma cell_at_pure_step (n : Z) (b : grid) (i j : Z) :
  dims n b → 0 <= i < n → 0 <= j < n →
  cell_at (pure_step n b) i j = Some (next_cell n b i j).
Proof.
  intros Hd Hi Hj. pose proof (cell_at_dims n b i j Hd Hi Hj) as Hc.
  unfold next_cell. unfold cell_at, row_at in *.
  destruct (Z.ltb_spec i 0); [lia|]. destruct (Z.ltb_spec j 0); [lia|].
  unfold pure_step. rewrite list_lookup_imap.
  destruct (b !! Z.to_nat i) as [r|]; [|done]. simpl in *.
  rewrite list_lookup_imap, Hc. simpl. by rewrite !Z2Nat.id by lia.
Qed.

Lemma pure_step_binary (n : Z) (b : grid) : binary b → binary (pure_step n b).
Proof.
  unfold binary, pure_step. intros Hb.
  apply Forall_forall. intros r Hin.
  apply list_elem_of_lookup in Hin as [i Hi]. rewrite list_lookup_imap in Hi.
  destruct (b !! i) as [r0|] eqn:E; [|done]. simpl in Hi. injection Hi as <-.
  apply Forall_forall. intros c Hc.
  apply list_elem_of_lookup in Hc as [j Hj]. rewrite list_lookup_imap in Hj.
  destruct (r0 !! j) as [c0|] eqn:E0; [|done]. simpl in Hj. injection Hj as <-.
  rewrite Forall_forall in Hb. specialize (Hb r0 (list_elem_of_lookup_2 _ _ _ E)).
  rewrite Forall_forall in Hb. specialize (Hb c0 (list_elem_of_lookup_2 _ _ _ E0)).
  unfold rule. repeat case_match; auto.
Qed.

(** A traversal that reaches every cell computes the simultaneous update. *)
Lemma partly_updated_all (st0 st : state) (order : list (Z * Z)) :
  dims (sq st0) (board_w st0) →
  (∀ i j, 0 <= i < sq st0 → 0 <= j < sq st0 → (i, j) ∈ order) →
  partly_updated st0 order st →
  st = with_board st0 (pure_step (sq st0) (board_w st0)).
Proof.
  intros Hd Hall (Hsq & Hg & Hw & Hdb & Hcells).
  destruct st as [b bw n gg]. simpl in *. subst. unfold with_board. f_equal.
  apply (grid_ext (sq st0)); [done|by apply pure_step_dims|].
  intros i j Hi Hj. rewrite Hcells, cell_at_pure_step by done.
  by rewrite decide_True by auto.
Qed.

(** ** One generation *)

Lemma snapshot_partly (st : state) (order : list (Z * Z)) :
  wf st → Forall (in_board (sq st)) order →
  ∃ st', run_over update_at order (snapshot st) = Some st'
         ∧ partly_updated (snapshot st) order st'.
Proof.
  intros [Hn Hb Hw Hbin] Hord.
  by apply (run_over_partly (snapshot st)).
Qed.

Lemma step_pure_step (st : state) :
  wf st →
  step st = Some (with_board (snapshot st) (pure_step (sq st) (board st))).
Proof.
  intros Hwf. pose proof Hwf as [Hn Hb Hw Hbin]. unfold step.
  rewrite copy_board_dims by done. simpl.
  change (with_board_w st (board st)) with (snapshot st).
  rewrite update_cells_row_major. change (sq (snapshot st)) with (sq st).
  destruct (snapshot_partly st (row_major (sq st)) Hwf) as (st' & -> & Hpu).
  { apply row_major_in_board. }
  f_equal. apply (partly_updated_all (snapshot st) st' (row_major (sq st)) Hb); [|done].
  intros i j Hi Hj. by apply elem_of_row_major.
Qed.

Lemma step_wf (st st' : state) : wf st → step st = Some st' → wf st'.
Proof.
  intros Hwf. pose proof Hwf as [Hn Hb Hw Hbin].
  rewrite step_pure_step by done. intros [= <-].
  split; simpl; [done|by apply pure_step_dims|done|by apply pure_step_binary].
Qed.

(** C1: for a well-formed state and a cell (i, j) of the board, one
    generation ([copy_board] and the two cell loops of [loop_board]) ends.
    The count [k] it takes at (i, j) is the toroidal one: the sum of the
    eight neighbours of (i, j) in the board as it was, coordinates taken
    modulo the side.  The cell's new value [c'] follows from its old value
    [c] and from [k] by the ordered rules: [k < 2] gives DEAD; otherwise a
    DEAD cell with [k = 3] becomes ALIVE; otherwise [k] equal to 2 or 3
    leaves the cell as it was (so a DEAD cell with [k = 2] stays DEAD);
    otherwise ([k > 3]) the cell is DEAD. *)
Theorem step_applies_rules (st : state) (i j : Z) :
  wf st → 0 <= i < sq st → 0 <= j < sq st →
  ∃ st' c k c',
    step st = Some st'
    ∧ cell_at (board st) i j = Some c
    ∧ count_neighbors (snapshot st) i j = Some k
    ∧ k = moore_count (sq st) (board st) i j
    ∧ cell_at (board st') i j = Some c'
    ∧ c' = rule c k
    ∧ (k < 2 → c' = DEAD)
    ∧ (¬ k < 2 → c = DEAD → k = 3 → c' = ALIVE)
    ∧ (¬ k < 2 → ¬ (c = DEAD ∧ k = 3) → k = 2 ∨ k = 3 → c' = c)
    ∧ (c = DEAD → k = 2 → c' = DEAD)
    ∧ (¬ k < 2 → ¬ (c = DEAD ∧ k = 3) → ¬ (k = 2 ∨ k = 3) → k > 3 ∧ c' = DEAD).
Proof.
  intros Hwf Hi Hj. pose proof Hwf as [Hn Hb Hw Hbin].
  destruct (count_neighbors_moore (snapshot st) i j) as [Hk Hk8]; [done..|].
  simpl in Hk, Hk8.
  exists (with_board (snapshot st) (pure_step (sq st) (board st))),
    (cell (board st) i j), (moore_count (sq st) (board st) i j),
    (next_cell (sq st) (board st) i j).
  split_and!.
  - by apply step_pure_step.
  - by apply (cell_at_dims (sq st)).
  - done.
  - done.
  - simpl. by apply cell_at_pure_step.
  - done.
  - unfold next_cell, rule. intros. by destruct (Z.ltb_spec (moore_count (sq st) (board st) i j) 2); [|lia].
  - unfold next_cell, rule. intros ? -> ->. done.
  - unfold next_cell, rule. intros H1 H2 H3.
    destruct (Z.ltb_spec (moore_count (sq st) (board st) i j) 2); [lia|].
    destruct (Z.eqb_spec (cell (board st) i j) DEAD),
      (Z.eqb_spec (moore_count (sq st) (board st) i j) 3),
      (Z.eqb_spec (moore_count (sq st) (board st) i j) 2); simpl; try done; lia.
  - unfold next_cell, rule. intros -> ->. done.
  - unfold next_cell, rule. intros H1 H2 H3.
    destruct (Z.ltb_spec (moore_count (sq st) (board st) i j) 2); [lia|].
    destruct (Z.eqb_spec (cell (board st) i j) DEAD),
      (Z.eqb_spec (moore_count (sq st) (board st) i j) 3),
      (Z.eqb_spec (moore_count (sq st) (board st) i j) 2); simpl; try tauto;
      (split; [lia|done]).
Qed.

(** C4: on a well-formed state the in-place generation (cells visited in
    row-major order, written into [board] while the counts are read from
    the copy [board_w]) ends with [board] equal to the simultaneous update
    [pure_step] of the old board; and so does a traversal of the cells in
    any other order, as long as it stays on the board and reaches every
    cell (visiting a cell more than once is allowed). *)
Theorem step_refines_pure_step (st : state) :
  wf st →
  (∃ st', step st = Some st' ∧ board st' = pure_step (sq st) (board st))
  ∧ ∀ order : list (Z * Z),
      Forall (in_board (sq st)) order →
      (∀ i j, 0 <= i < sq st → 0 <= j < sq st → (i, j) ∈ order) →
      ∃ st', (bw ← copy_board (sq st) (board st) (board_w st);
              run_over update_at order (with_board_w st bw)) = Some st'
             ∧ board st' = pure_step (sq st) (board st).
Proof.
  intros Hwf. pose proof Hwf as [Hn Hb Hw Hbin]. split.
  - eexists. split; [by apply step_pure_step|done].
  - intros order Hord Hall. rewrite copy_board_dims by done. simpl.
    destruct (snapshot_partly st order Hwf Hord) as (st' & Hrun & Hpu).
    exists st'. split; [done|].
    by rewrite (partly_updated_all (snapshot st) st' order Hb Hall Hpu).
Qed.

(** ** Safety of the accesses *)

Lemma update_cell_in_bounds (st : state) (i j : Z) :
  size_ok (sq st) → dims (sq st) (board st) → dims (sq st) (board_w st) →
  0 <= i < sq st → 0 <= j < sq st →
  ∃ st', update_cell i j st = Some st' ∧ sq st' = sq st
         ∧ board_w st' = board_w st ∧ dims (sq st) (board st').
Proof.
  intros Hn Hb Hw Hi Hj. unfold update_cell.
  destruct (count_neighbors st i j) as [k|] eqn:Ek;
    [|by rewrite count_neighbors_reads in Ek].
  simpl.
  rewrite (cell_at_dims (sq st)) by done. simpl.
  unfold kill_cell, produce_cell.
  destruct (set_cell_dims (sq st) (board st) i j DEAD Hb Hi Hj) as (b0 & -> & Hd0).
  destruct (set_cell_dims (sq st) (board st) i j ALIVE Hb Hi Hj) as (b1 & -> & Hd1).
  simpl. repeat case_match; eauto.
Qed.

Lemma step_in_bounds (st : state) :
  size_ok (sq st) → dims (sq st) (board st) → dims (sq st) (board_w st) →
  is_Some (step st).
Proof.
  intros Hn Hb Hw. unfold step. rewrite copy_board_dims by done. simpl.
  rewrite update_cells_row_major. simpl.
  destruct (run_over_inv
    (λ _ s, sq s = sq st ∧ dims (sq st) (board s) ∧ dims (sq st) (board_w s))
    update_at (row_major (sq st)) (with_board_w st (board st)))
    as (st' & -> & _); [done| |done].
  intros pre [i j] s Hin (Hsq & Hdb & Hdw).
  apply elem_of_row_major in Hin as [Hi Hj].
  destruct (update_cell_in_bounds s i j) as (s' & Hs' & E1 & E2 & E3);
    rewrite ?Hsq; try done.
  exists s'. rewrite Hsq, ?E2 in *. done.
Qed.

Lemma rem_shifted (n k : Z) : 0 < n → 0 <= k + n → Z.rem (k + n) n = k mod n.
Proof.
  intros Hn Hk. rewrite Z.rem_mod_nonneg by lia.
  replace (k + n) with (k + 1 * n) by lia. apply Z_mod_plus_full.
Qed.

(** C9: for a side length N > 0 and a cell (i, j) of an N by N board, the
    four indices (i-1+N)%N, (i+1+N)%N, (j-1+N)%N, (j+1+N)%N lie in [0, N).
    For N < 2^30, where the [int] sums do not overflow (and beyond which no
    board can be allocated), these are the indices [count_neighbors]
    computes, and all its reads, the reads and writes of the rule
    application at (i, j), and those of a whole generation are within the
    boards: none of them takes the out-of-bounds branch. *)
Theorem accesses_in_bounds (st : state) (i j : Z) :
  0 < sq st → dims (sq st) (board st) → dims (sq st) (board_w st) →
  0 <= i < sq st → 0 <= j < sq st →
  let n := sq st in
  (0 <= Z.rem (i - 1 + n) n < n ∧ 0 <= Z.rem (i + 1 + n) n < n
   ∧ 0 <= Z.rem (j - 1 + n) n < n ∧ 0 <= Z.rem (j + 1 + n) n < n)
  ∧ (n < 2 ^ 30 →
     idx_prev n i = Some (Z.rem (i - 1 + n) n)
     ∧ idx_next n i = Some (Z.rem (i + 1 + n) n)
     ∧ idx_prev n j = Some (Z.rem (j - 1 + n) n)
     ∧ idx_next n j = Some (Z.rem (j + 1 + n) n)
     ∧ is_Some (count_neighbors st i j)
     ∧ is_Some (update_cell i j st)
     ∧ is_Some (step st)).
Proof.
  intros Hpos Hb Hw Hi Hj n. subst n.
  rewrite !rem_shifted by lia. split.
  - split_and!; by apply mod_in_range.
  - intros Hlt. assert (size_ok (sq st)) as Hn by (by split).
    rewrite !idx_prev_ok, !idx_next_ok by done.
    split_and!; try done.
    + rewrite count_neighbors_reads by done. done.
    + destruct (update_cell_in_bounds st i j) as (st' & -> & _); done.
    + by apply step_in_bounds.
Qed.

(** ** Wrap-around of the neighbourhood *)

Lemma wrap_back_next (n : Z) : 0 < n → ((-1) mod n + 1) mod n = 0.
Proof.
  intros Hn. rewrite Z.add_mod_idemp_l by lia. by rewrite Z.mod_0_l by lia.
Qed.

Lemma wrap_back_prev (n : Z) : 0 < n → (1 mod n - 1) mod n = 0.
Proof.
  intros Hn. rewrite <- Zminus_mod_idemp_l. rewrite Z.mod_mod by lia.
  rewrite Zminus_mod_idemp_l. by rewrite Z.mod_0_l by lia.
Qed.

Lemma lone_origin_counted (st : state) (a b : Z) :
  size_ok (sq st) → dims (sq st) (board_w st) → binary (board_w st) →
  lone_origin (sq st) (board_w st) →
  -1 <= a <= 1 → -1 <= b <= 1 → (a, b) ≠ (0, 0) →
  counts_some st (a mod sq st, b mod sq st).
Proof.
  intros Hn Hd Hb Hlone Ha Hbb Hne. unfold counts_some. simpl.
  assert (0 < sq st) as Hpos by (unfold size_ok in Hn; lia).
  pose proof (mod_in_range (sq st) a Hpos) as Hi.
  pose proof (mod_in_range (sq st) b Hpos) as Hj.
  destruct (count_neighbors_moore st (a mod sq st) (b mod sq st)) as [-> _];
    [done..|].
  eexists. split; [done|]. unfold moore_count.
  set (i := a mod sq st) in *. set (j := b mod sq st) in *.
  pose proof (mod_in_range (sq st) (i - 1) Hpos) as Him.
  pose proof (mod_in_range (sq st) (i + 1) Hpos) as Hip.
  pose proof (mod_in_range (sq st) (j - 1) Hpos) as Hjm.
  pose proof (mod_in_range (sq st) (j + 1) Hpos) as Hjp.
  pose proof (cell_binary _ _ _ _ Hd Hb Him Hj).
  pose proof (cell_binary _ _ _ _ Hd Hb Hip Hj).
  pose proof (cell_binary _ _ _ _ Hd Hb Hi Hjm).
  pose proof (cell_binary _ _ _ _ Hd Hb Hi Hjp).
  pose proof (cell_binary _ _ _ _ Hd Hb Hip Hjm).
  pose proof (cell_binary _ _ _ _ Hd Hb Hip Hjp).
  pose proof (cell_binary _ _ _ _ Hd Hb Him Hjm).
  pose proof (cell_binary _ _ _ _ Hd Hb Him Hjp).
  pose proof (Hlone 0 0 ltac:(lia) ltac:(lia)) as H00. simpl in H00.
  pose proof (wrap_back_next (sq st) Hpos) as Wn.
  pose proof (wrap_back_prev (sq st) Hpos) as Wp.
  assert (0 mod sq st = 0) as W0 by (apply Z.mod_0_l; lia).
  unfold DEAD, ALIVE in *.
  assert (a = -1 ∨ a = 0 ∨ a = 1) as [-> | [-> | ->]] by lia;
    assert (b = -1 ∨ b = 0 ∨ b = 1) as [-> | [-> | ->]] by lia;
    try done; subst i j; rewrite ?Wn, ?Wp, ?W0 in *; lia.
Qed.

(** C2: for a side length N > 0 and a cell (i, j) of the board,
    [count_neighbors] returns the sum of the eight Moore neighbours of
    (i, j) in the working board, both coordinates taken modulo N.  On a
    board whose only ALIVE cell is (0, 0), the count of each of the eight
    cells around (0, 0), coordinates taken modulo N, includes that cell;
    for N >= 2 these are the cells (N-1, N-1), (N-1, 0), (N-1, 1),
    (0, N-1), (0, 1), (1, N-1), (1, 0), (1, 1). *)
Theorem count_neighbors_toroidal (st : state) :
  size_ok (sq st) → dims (sq st) (board_w st) → binary (board_w st) →
  let n := sq st in
  (∀ i j, 0 <= i < n → 0 <= j < n →
     count_neighbors st i j = Some (moore_count n (board_w st) i j))
  ∧ (lone_origin n (board_w st) →
     (∀ a b, -1 <= a <= 1 → -1 <= b <= 1 → (a, b) ≠ (0, 0) →
        counts_some st (a mod n, b mod n))
     ∧ (2 <= n →
        Forall (counts_some st)
          [(n - 1, n - 1); (n - 1, 0); (n - 1, 1); (0, n - 1);
           (0, 1); (1, n - 1); (1, 0); (1, 1)])).
Proof.
  intros Hn Hd Hb0 n. split.
  - intros i j Hi Hj. by apply count_neighbors_moore.
  - intros Hlone. split.
    + intros a b Ha Hbb Hne. by apply lone_origin_counted.
    + intros H2.
      assert ((-1) mod n = n - 1) as Em.
      { replace (-1) with (0 - 1) by lia. rewrite mod_prev by lia. done. }
      assert (1 mod n = 1) as Ep by (apply Z.mod_small; lia).
      assert (0 mod n = 0) as E0 by (apply Z.mod_0_l; lia).
      pose proof (λ a b Ha Hb Hne, lone_origin_counted st a b Hn Hd Hb0 Hlone Ha Hb Hne)
        as Hc.
      fold n in Hc.
      pose proof (Hc (-1) (-1)) as H1. pose proof (Hc (-1) 0) as H2'.
      pose proof (Hc (-1) 1) as H3. pose proof (Hc 0 (-1)) as H4.
      pose proof (Hc 0 1) as H5. pose proof (Hc 1 (-1)) as H6.
      pose proof (Hc 1 0) as H7. pose proof (Hc 1 1) as H8.
      rewrite ?Em, ?Ep, ?E0 in *.
      repeat apply Forall_cons_2; [..|apply Forall_nil_2];
        match goal with H : _ |- _ => apply H; (lia || done) end.
Qed.

(** ** Still lifes and oscillators *)

(** Along one axis: a cell of the pair has exactly one neighbour in the
    pair, a cell outside at most one. *)
Lemma pair_line (n r i : Z) :
  4 <= n → 0 <= r < n → 0 <= i < n →
  (in_pair n r i = true →
     xorb (in_pair n r ((i - 1) mod n)) (in_pair n r ((i + 1) mod n)) = true)
  ∧ (in_pair n r i = false →
     in_pair n r ((i - 1) mod n) && in_pair n r ((i + 1) mod n) = false).
Proof.
  intros Hn Hr Hi. unfold in_pair.
  rewrite (mod_prev n i), (mod_next n i), (mod_next n r) by lia.
  split; split_eqb; done.
Qed.

Lemma block_next_cell (n r c : Z) (b : grid) (i j : Z) :
  4 <= n → 0 <= r < n → 0 <= c < n → is_block n r c b →
  0 <= i < n → 0 <= j < n →
  next_cell n b i j = cell b i j.
Proof.
  intros Hn Hr Hc Hblock Hi Hj. unfold next_cell, moore_count.
  assert (0 < n) as Hpos by lia.
  pose proof (mod_in_range n (i - 1) Hpos) as Him.
  pose proof (mod_in_range n (i + 1) Hpos) as Hip.
  pose proof (mod_in_range n (j - 1) Hpos) as Hjm.
  pose proof (mod_in_range n (j + 1) Hpos) as Hjp.
  rewrite !Hblock by done.
  destruct (pair_line n r i) as [R1 R0]; [done..|].
  destruct (pair_line n c j) as [C1 C0]; [done..|].
  revert R1 R0 C1 C0.
  destruct (in_pair n r i), (in_pair n r ((i - 1) mod n)),
    (in_pair n r ((i + 1) mod n)), (in_pair n c j),
    (in_pair n c ((j - 1) mod n)), (in_pair n c ((j + 1) mod n));
    cbn [xorb andb]; intros R1 R0 C1 C0;
    first [ reflexivity
          | specialize (R1 eq_refl); discriminate R1
          | specialize (R0 eq_refl); discriminate R0
          | specialize (C1 eq_refl); discriminate C1
          | specialize (C0 eq_refl); discriminate C0 ].
Qed.

Lemma block_pure_step (n r c : Z) (b : grid) :
  4 <= n → 0 <= r < n → 0 <= c < n → dims n b → is_block n r c b →
  pure_step n b = b.
Proof.
  intros Hn Hr Hc Hd Hblock.
  apply (grid_ext n); [by apply pure_step_dims|done|].
  intros i j Hi Hj. rewrite cell_at_pure_step, (cell_at_dims n b) by done.
  f_equal. by apply (block_next_cell n r c).
Qed.

Lemma steps_fixed (k : nat) (st : state) :
  wf st → pure_step (sq st) (board st) = board st →
  ∃ st', steps k st = Some st' ∧ board st' = board st ∧ sq st' = sq st.
Proof.
  revert st. induction k as [|k IH]; intros st Hwf Hfix; simpl.
  - by exists st.
  - rewrite step_pure_step by done. simpl.
    set (st1 := with_board (snapshot st) (pure_step (sq st) (board st))).
    destruct (IH st1) as (st' & Hrun & Hb & Hs).
    + eapply step_wf; [done|]. by apply step_pure_step.
    + simpl. by rewrite !Hfix.
    + exists st'. simpl in *. by rewrite Hrun, Hb, Hs, Hfix.
Qed.

(** C7: on a board of side N >= 4 whose ALIVE cells are exactly the four
    cells of a 2 by 2 block, wherever the block lies (it may wrap around
    the edges), any number [k] of generations ends and leaves the board as
    it was. *)
Theorem block_still_life (st : state) (r c : Z) (k : nat) :
  wf st → 4 <= sq st → 0 <= r < sq st → 0 <= c < sq st →
  is_block (sq st) r c (board st) →
  ∃ st', steps k st = Some st' ∧ board st' = board st.
Proof.
  intros Hwf Hn Hr Hc Hblock.
  destruct (steps_fixed k st Hwf) as (st' & Hrun & Hb & _).
  - apply (block_pure_step _ r c); try done. apply Hwf.
  - by exists st'.
Qed.

(** Along the axis across the line: the three positions whose neighbourhood
    meets position [r] are [r] and its two neighbours, and only one of a
    position and its two neighbours is [r]. *)
Lemma point_line (n r i : Z) :
  3 <= n → 0 <= r < n → 0 <= i < n →
  let a := (i - 1) mod n =? r in
  let m := i =? r in
  let p := (i + 1) mod n =? r in
  in_triple n r i = a || m || p
  ∧ a && m = false ∧ a && p = false ∧ m && p = false.
Proof.
  intros Hn Hr Hi. unfold in_triple. cbv zeta.
  rewrite (mod_prev n i), (mod_next n i), (mod_prev n r), (mod_next n r) by lia.
  destruct (Z.eqb_spec i 0), (Z.eqb_spec (i + 1) n),
    (Z.eqb_spec r 0), (Z.eqb_spec (r + 1) n); try lia;
    split_and!; split_eqb; done.
Qed.

(** Along the axis of the line. *)
Lemma triple_line (n c j : Z) :
  4 <= n → 0 <= c < n → 0 <= j < n →
  let a := in_triple n c ((j - 1) mod n) in
  let m := in_triple n c j in
  let p := in_triple n c ((j + 1) mod n) in
  (j =? c) = a && m && p ∧ (m = true → a || p = true).
Proof.
  intros Hn Hc Hj. unfold in_triple. cbv zeta.
  rewrite (mod_prev n j), (mod_next n j), (mod_prev n c), (mod_next n c) by lia.
  destruct (Z.eqb_spec j 0), (Z.eqb_spec (j + 1) n),
    (Z.eqb_spec c 0), (Z.eqb_spec (c + 1) n); try lia;
    split; split_eqb; done.
Qed.

Lemma row_blinker_next_cell (n r c : Z) (b : grid) (i j : Z) :
  4 <= n → 0 <= r < n → 0 <= c < n → is_row_blinker n r c b →
  0 <= i < n → 0 <= j < n →
  next_cell n b i j = if in_triple n r i && (j =? c) then ALIVE else DEAD.
Proof.
  intros Hn Hr Hc Hblinker Hi Hj. unfold next_cell, moore_count.
  assert (0 < n) as Hpos by lia.
  pose proof (mod_in_range n (i - 1) Hpos) as Him.
  pose proof (mod_in_range n (i + 1) Hpos) as Hip.
  pose proof (mod_in_range n (j - 1) Hpos) as Hjm.
  pose proof (mod_in_range n (j + 1) Hpos) as Hjp.
  rewrite !Hblinker by done.
  destruct (point_line n r i) as (-> & R1 & R2 & R3); [lia|done..|].
  destruct (triple_line n c j) as (-> & C2); [done..|].
  revert R1 R2 R3 C2.
  destruct (i =? r), ((i - 1) mod n =? r), ((i + 1) mod n =? r),
    (in_triple n c j), (in_triple n c ((j - 1) mod n)),
    (in_triple n c ((j + 1) mod n));
    cbn [orb andb]; intros R1 R2 R3 C2; blinker_cases R1 R2 R3 C2.
Qed.

Lemma col_blinker_next_cell (n r c : Z) (b : grid) (i j : Z) :
  4 <= n → 0 <= r < n → 0 <= c < n → is_col_blinker n r c b →
  0 <= i < n → 0 <= j < n →
  next_cell n b i j = if (i =? r) && in_triple n c j then ALIVE else DEAD.
Proof.
  intros Hn Hr Hc Hblinker Hi Hj. unfold next_cell, moore_count.
  assert (0 < n) as Hpos by lia.
  pose proof (mod_in_range n (i - 1) Hpos) as Him.
  pose proof (mod_in_range n (i + 1) Hpos) as Hip.
  pose proof (mod_in_range n (j - 1) Hpos) as Hjm.
  pose proof (mod_in_range n (j + 1) Hpos) as Hjp.
  rewrite !Hblinker by done.
  destruct (point_line n c j) as (-> & R1 & R2 & R3); [lia|done..|].
  destruct (triple_line n r i) as (-> & C2); [done..|].
  revert R1 R2 R3 C2.
  destruct (j =? c), ((j - 1) mod n =? c), ((j + 1) mod n =? c),
    (in_triple n r i), (in_triple n r ((i - 1) mod n)),
    (in_triple n r ((i + 1) mod n));
    cbn [orb andb]; intros R1 R2 R3 C2; blinker_cases R1 R2 R3 C2.
Qed.

(** C8, as the program has it: on a board of side N >= 4 whose ALIVE cells
    are exactly three cells in a row with middle cell (r, c), one
    generation leaves exactly the three cells of column [c] with the same
    middle cell ALIVE, and a second generation gives the first board
    back. *)
Theorem blinker_period_two (st : state) (r c : Z) :
  wf st → 4 <= sq st → 0 <= r < sq st → 0 <= c < sq st →
  is_row_blinker (sq st) r c (board st) →
  ∃ st1 st2,
    step st = Some st1 ∧ is_col_blinker (sq st) r c (board st1)
    ∧ step st1 = Some st2 ∧ board st2 = board st.
Proof.
  intros Hwf Hn Hr Hc Hrow. pose proof Hwf as [Hs Hb Hw Hbin].
  set (st1 := with_board (snapshot st) (pure_step (sq st) (board st))).
  assert (step st = Some st1) as H1 by (by apply step_pure_step).
  pose proof (step_wf st st1 Hwf H1) as Hwf1.
  assert (is_col_blinker (sq st) r c (board st1)) as Hcol.
  { intros i j Hi Hj. unfold cell. simpl.
    rewrite cell_at_pure_step by done. simpl.
    by apply row_blinker_next_cell. }
  exists st1, (with_board (snapshot st1) (pure_step (sq st1) (board st1))).
  split_and!; [done|done|by apply step_pure_step|].
  cbn [board with_board].
  apply (grid_ext (sq st)).
  - apply pure_step_dims, Hwf1.
  - done.
  - intros i j Hi Hj. change (sq st1) with (sq st).
    rewrite cell_at_pure_step; [|apply Hwf1|done..].
    rewrite (col_blinker_next_cell (sq st) r c) by done.
    rewrite (cell_at_dims (sq st) (board st)) by done.
    by rewrite Hrow.
Qed.

(** ** Cells are DEAD or ALIVE *)

(** Preservation rule for a loop that may stop on a failure. *)
Lemma run_over_pres {S A : Type} (P : S → Prop) (body : A → S → option S)
    (l : list A) (s s' : S) :
  (∀ x s s', body x s = Some s' → P s → P s') →
  P s → run_over body l s = Some s' → P s'.
Proof.
  intros Hbody. revert s. induction l as [|x l IH]; intros s HP H; simpl in H.
  - by injection H as <-.
  - destruct (body x s) as [s1|] eqn:E; [|done]. simpl in H.
    apply (IH s1); [|done]. by eapply Hbody.
Qed.

Lemma create_board_binary (st : state) :
  binary (board (create_board st)) ∧ binary (board_w (create_board st)).
Proof.
  assert (binary (replicate (Z.to_nat (sq st)) (replicate (Z.to_nat (sq st)) 0))).
  { unfold binary. apply Forall_replicate, Forall_replicate. by left. }
  done.
Qed.

Lemma create_board_dims (st : state) :
  0 <= sq st →
  dims (sq st) (board (create_board st)) ∧ dims (sq st) (board_w (create_board st)).
Proof.
  intros Hn.
  assert (dims (sq st) (replicate (Z.to_nat (sq st)) (replicate (Z.to_nat (sq st)) 0))).
  { split; [by rewrite length_replicate|].
    apply Forall_replicate. by rewrite length_replicate. }
  done.
Qed.

Lemma set_cell_keeps_dims (n : Z) (b b' : grid) (i j v : Z) :
  dims n b → set_cell b i j v = Some b' → dims n b'.
Proof.
  unfold set_cell, row_at. intros [Hl Hr] H.
  destruct (i <? 0); [done|].
  destruct (b !! Z.to_nat i) as [r|] eqn:Er; [|done]. simpl in H.
  destruct ((0 <=? j) && (j <? Z.of_nat (length r))); [|done].
  injection H as <-. split; [by rewrite length_insert|].
  apply Forall_insert; [done|]. rewrite length_insert.
  rewrite Forall_forall in Hr. apply Hr. by eapply list_elem_of_lookup_2.
Qed.

Lemma read_chars_binary (cs : list ascii) (x y : Z) (b b' : grid) :
  binary b → read_chars cs x y b = Some b' → binary b'.
Proof.
  revert x y b. induction cs as [|ch cs IH]; intros x y b Hb H; simpl in H.
  - by injection H as <-.
  - destruct (Ascii.eqb ch (ascii_of_nat 255)); [by injection H as <-|].
    destruct (Ascii.eqb ch nl); [by eapply IH|].
    destruct (Ascii.eqb ch ch_dead).
    { destruct (set_cell b x y DEAD) as [b1|] eqn:E; [|done]. simpl in H.
      eapply IH; [|done]. eapply set_cell_binary; [done| |done]. by left. }
    destruct (Ascii.eqb ch ch_alive).
    { destruct (set_cell b x y ALIVE) as [b1|] eqn:E; [|done]. simpl in H.
      eapply IH; [|done]. eapply set_cell_binary; [done| |done]. by right. }
    simpl in H. by eapply IH.
Qed.

Lemma read_chars_dims (n : Z) (cs : list ascii) (x y : Z) (b b' : grid) :
  dims n b → read_chars cs x y b = Some b' → dims n b'.
Proof.
  revert x y b. induction cs as [|ch cs IH]; intros x y b Hb H; simpl in H.
  - by injection H as <-.
  - destruct (Ascii.eqb ch (ascii_of_nat 255)); [by injection H as <-|].
    destruct (Ascii.eqb ch nl); [by eapply IH|].
    destruct (Ascii.eqb ch ch_dead).
    { destruct (set_cell b x y DEAD) as [b1|] eqn:E; [|done]. simpl in H.
      eapply IH; [|done]. by eapply set_cell_keeps_dims. }
    destruct (Ascii.eqb ch ch_alive).
    { destruct (set_cell b x y ALIVE) as [b1|] eqn:E; [|done]. simpl in H.
      eapply IH; [|done]. by eapply set_cell_keeps_dims. }
    simpl in H. by eapply IH.
Qed.

Lemma read_board_wf (fname : string) (st st' : state) (w : world) :
  size_ok (sq st) → read_board fname (create_board st) w = Some st' →
  wf st' ∧ sq st' = sq st ∧ g st' = g st.
Proof.
  intros Hn H. unfold read_board in H.
  destruct (files w !! fname) as [cs|]; [|done]. cbn [mbind option_bind] in H.
  destruct (read_chars cs 0 0 (board (create_board st))) as [b|] eqn:E; [|done].
  injection H as <-.
  destruct (create_board_dims st) as [D1 D2]; [unfold size_ok in Hn; lia|].
  destruct (create_board_binary st) as [B1 B2].
  split; [|done]. split; simpl; [done| |done|].
  - by eapply read_chars_dims.
  - by eapply read_chars_binary.
Qed.

Lemma memcpy_row_binary (dst src r : list Z) (n : Z) :
  Forall (λ c, c = DEAD ∨ c = ALIVE) dst → Forall (λ c, c = DEAD ∨ c = ALIVE) src →
  memcpy_row dst src n = Some r → Forall (λ c, c = DEAD ∨ c = ALIVE) r.
Proof.
  unfold memcpy_row. intros Hd Hs H.
  destruct ((n <=? Z.of_nat (length src)) && (n <=? Z.of_nat (length dst))); [|done].
  injection H as <-. apply Forall_app. split.
  - by apply Forall_take.
  - by apply Forall_drop.
Qed.

Lemma copy_board_binary (n : Z) (src dst d : grid) :
  binary src → binary dst → copy_board n src dst = Some d → binary d.
Proof.
  intros Hs Hd H. unfold copy_board, for_int in H.
  apply (run_over_pres binary _ _ _ _) in H; [done| |done].
  clear H. intros i b b' H Hb. unfold copy_row, row_at in H.
  destruct (i <? 0); [done|].
  destruct (b !! Z.to_nat i) as [rd|] eqn:Ed; [|done].
  destruct (src !! Z.to_nat i) as [rs|] eqn:Es; [|done]. simpl in H.
  destruct (memcpy_row rd rs n) as [r|] eqn:Em; [|done]. injection H as <-.
  unfold binary in *. apply Forall_insert; [done|].
  rewrite Forall_forall in Hb, Hs.
  eapply memcpy_row_binary; [| |done].
  - apply Hb. by eapply list_elem_of_lookup_2.
  - apply Hs. by eapply list_elem_of_lookup_2.
Qed.

Lemma update_cell_binary (i j : Z) (st st' : state) :
  update_cell i j st = Some st' →
  binary (board st) ∧ binary (board_w st) →
  binary (board st') ∧ binary (board_w st').
Proof.
  intros H [Hb Hw]. unfold update_cell, kill_cell, produce_cell in H.
  destruct (count_neighbors st i j) as [k|]; [|done]. simpl in H.
  assert (∀ v b', (v = DEAD ∨ v = ALIVE) → set_cell (board st) i j v = Some b' →
            binary (board (with_board st b')) ∧ binary (board_w (with_board st b')))
    as Hset.
  { intros v b' Hv E. split; [|done]. exact (set_cell_binary _ _ _ _ _ Hb Hv E). }
  destruct (k <? 2).
  { destruct (set_cell (board st) i j DEAD) as [b'|] eqn:E; [|done].
    injection H as <-. apply (Hset DEAD); [by left|done]. }
  destruct (cell_at (board_w st) i j) as [c|]; [|done]. simpl in H.
  destruct ((c =? DEAD) && (k =? 3)).
  { destruct (set_cell (board st) i j ALIVE) as [b'|] eqn:E; [|done].
    injection H as <-. apply (Hset ALIVE); [by right|done]. }
  destruct ((k <? 4) && (1 <? k)); [by injection H as <-|].
  destruct (3 <? k); [|by injection H as <-].
  destruct (set_cell (board st) i j DEAD) as [b'|] eqn:E; [|done].
  injection H as <-. apply (Hset DEAD); [by left|done].
Qed.

Lemma step_binary (st st' : state) :
  binary (board st) → binary (board_w st) → step st = Some st' →
  binary (board st') ∧ binary (board_w st').
Proof.
  intros Hb Hw H. unfold step in H.
  destruct (copy_board (sq st) (board st) (board_w st)) as [bw|] eqn:Ec; [|done].
  simpl in H. unfold update_cells, for_int in H.
  apply (run_over_pres (λ s, binary (board s) ∧ binary (board_w s)) _ _ _ _) in H;
    [done| |].
  - intros i s s' Hrow. unfold update_row, for_int in Hrow.
    intros Hs.
    apply (run_over_pres (λ s, binary (board s) ∧ binary (board_w s)) _ _ _ _) in Hrow;
      [done| |done].
    intros j t t'. apply update_cell_binary.
  - split; [done|]. simpl. exact (copy_board_binary _ _ _ _ Hb Hw Ec).
Qed.

Lemma count_neighbors_bounds (st : state) (i j k : Z) :
  binary (board_w st) → count_neighbors st i j = Some k → 0 <= k <= 8.
Proof.
  intros Hw H. unfold count_neighbors in H.
  repeat match type of H with
         | (?o ≫= _) = Some _ =>
             let E := fresh "E" in
             destruct o as [?|] eqn:E; [simpl in H|done];
             try (apply (cell_at_binary _ _ _ _ Hw) in E)
         end.
  injection H as <-. unfold DEAD, ALIVE in *.
  repeat match goal with
         | |- context [CInt.add ?a ?b] => rewrite (add_small a b) by lia
         end.
  lia.
Qed.

(** C10: [create_board] leaves every cell of both boards DEAD; reading a
    board file (any content: a read that stays within the board sets a
    cell to DEAD or ALIVE or leaves it alone), [copy_board] and a whole
    generation of [loop_board] lead from boards of DEAD and ALIVE cells to
    boards of DEAD and ALIVE cells; and over such a working board every
    neighbour count is between 0 and 8. *)
Theorem cells_stay_binary (st0 st : state) (fname : string) (w : world) (i j : Z) :
  binary (board st) → binary (board_w st) →
  (binary (board (create_board st0)) ∧ binary (board_w (create_board st0))
   ∧ Forall (Forall (λ c, c = DEAD)) (board (create_board st0))
   ∧ Forall (Forall (λ c, c = DEAD)) (board_w (create_board st0)))
  ∧ (∀ st', read_board fname st w = Some st' →
       binary (board st') ∧ binary (board_w st'))
  ∧ (∀ bw, copy_board (sq st) (board st) (board_w st) = Some bw → binary bw)
  ∧ (∀ st', step st = Some st' → binary (board st') ∧ binary (board_w st'))
  ∧ (∀ k, count_neighbors st i j = Some k → 0 <= k <= 8).
Proof.
  intros Hb Hw. split_and!.
  - apply create_board_binary.
  - apply create_board_binary.
  - simpl. by apply Forall_replicate, Forall_replicate.
  - simpl. by apply Forall_replicate, Forall_replicate.
  - intros st' H. unfold read_board in H.
    destruct (files w !! fname) as [cs|]; [|done]. simpl in H.
    destruct (read_chars cs 0 0 (board st)) as [b|] eqn:E; [|done].
    injection H as <-. split; [|done]. exact (read_chars_binary _ _ _ _ _ Hb E).
  - intros bw. by apply copy_board_binary.
  - intros st'. by apply step_binary.
  - intros k. by apply count_neighbors_bounds.
Qed.

(** ** The board file *)

Lemma tabulate_dims (n : Z) (f : Z → Z → Z) : dims n (tabulate n f).
Proof.
  unfold tabulate. split.
  - by rewrite length_fmap, length_seqZ.
  - apply Forall_fmap, Forall_forall. intros i _. simpl.
    by rewrite length_fmap, length_seqZ.
Qed.

Lemma cell_at_tabulate (n : Z) (f : Z → Z → Z) (i j : Z) :
  0 <= i < n → 0 <= j < n → cell_at (tabulate n f) i j = Some (f i j).
Proof.
  intros Hi Hj. unfold cell_at, row_at, tabulate.
  destruct (Z.ltb_spec i 0); [lia|]. destruct (Z.ltb_spec j 0); [lia|].
  rewrite list_lookup_fmap, lookup_seqZ_lt by lia. simpl.
  rewrite list_lookup_fmap, lookup_seqZ_lt by lia. simpl.
  by rewrite !Z2Nat.id by lia.
Qed.

Lemma tabulate_cells (n : Z) (b : grid) : dims n b → b = tabulate n (cell b).
Proof.
  intros Hd. apply (grid_ext n); [done|apply tabulate_dims|].
  intros i j Hi Hj. by rewrite cell_at_tabulate, (cell_at_dims n b).
Qed.

Lemma tabulate_binary (n : Z) (f : Z → Z → Z) :
  (∀ i j, 0 <= i < n → 0 <= j < n → f i j = DEAD ∨ f i j = ALIVE) →
  binary (tabulate n f).
Proof.
  intros Hf. unfold binary, tabulate.
  apply Forall_fmap, Forall_forall. intros i Hi%elem_of_seqZ. simpl.
  apply Forall_fmap, Forall_forall. intros j Hj%elem_of_seqZ. simpl.
  apply Hf; lia.
Qed.

(** The text of a board, cell by cell. *)
Lemma render_tabulate (n : Z) (f : Z → Z → Z) :
  render (tabulate n f)
  = i ← seqZ 0 n; ((λ j, symbol_of (f i j)) <$> seqZ 0 n) ++ [nl].
Proof.
  unfold render, tabulate. rewrite list_fmap_bind.
  apply list_bind_ext; [|done]. intros i. simpl.
  by rewrite <- list_fmap_compose.
Qed.

Lemma write_row_text (n : Z) (b : grid) (i : Z) (acc : option ascii * list ascii) :
  dims n b → binary b → 0 <= i < n →
  ∃ s, write_row n b i acc
       = Some (s, acc.2 ++ ((λ j, symbol_of (cell b i j)) <$> seqZ 0 n) ++ [nl]).
Proof.
  intros Hd Hb Hi. unfold write_row, for_int.
  destruct (run_over_inv
    (λ pre a, a.2 = acc.2 ++ ((λ j, symbol_of (cell b i j)) <$> pre))
    (write_cell b i) (seqZ 0 n) acc) as (a & -> & Ha).
  - by rewrite app_nil_r.
  - intros pre j a Hj%elem_of_seqZ Ha. unfold write_cell.
    rewrite (cell_at_dims n b) by (done || lia). simpl.
    destruct (cell_binary n b i j) as [E|E]; [done|done|lia|lia|..];
      rewrite E; simpl; eexists; (split; [done|]); simpl;
      rewrite Ha, fmap_app, app_assoc; simpl; by rewrite E.
  - simpl. exists a.1. by rewrite Ha, app_assoc.
Qed.

Lemma board_text_render (n : Z) (b : grid) :
  dims n b → binary b → board_text n b = Some (render b).
Proof.
  intros Hd Hb. unfold board_text, for_int.
  destruct (run_over_inv
    (λ pre a, a.2 = (i ← pre; ((λ j, symbol_of (cell b i j)) <$> seqZ 0 n) ++ [nl]))
    (write_row n b) (seqZ 0 n) (None, [])) as (a & -> & Ha).
  - done.
  - intros pre i a Hi%elem_of_seqZ Ha.
    destruct (write_row_text n b i a Hd Hb) as (s & ->); [lia|].
    eexists. split; [done|]. simpl.
    by rewrite Ha, bind_app, bind_singleton.
  - simpl. rewrite Ha. f_equal.
    rewrite <- (render_tabulate n (cell b)).
    by rewrite <- tabulate_cells.
Qed.

Lemma write_board_render (fname : string) (st : state) (w : world) :
  dims (sq st) (board st) → binary (board st) → writable w = true →
  write_board fname st w = Some (store fname (render (board st)) w).
Proof.
  intros Hd Hb Hw. unfold write_board. rewrite Hw.
  by rewrite board_text_render.
Qed.

(** ** The generation loop and [main] *)

Section Run.

Variable st0 : state.
Variable w0 : world.
Hypothesis Hwf : wf st0.
Hypothesis Hwritable : writable w0 = true.

Lemma generation_after (k : nat) (x : Z) (sw : state * world) :
  after st0 w0 k sw → ∃ sw', generation x sw = Some sw' ∧ after st0 w0 (S k) sw'.
Proof.
  destruct sw as [s w].
  intros (Hs & Hsq & Hg & Hb & Hbw & H0 & Hwr & Hfiles & Htrace). simpl in *.
  unfold generation. simpl. rewrite step_pure_step by done. simpl.
  set (s1 := with_board (snapshot s) (pure_step (sq s) (board s))).
  assert (wf s1) as Hs1 by (eapply step_wf; [done|by apply step_pure_step]).
  rewrite write_board_render; [|apply Hs1|apply Hs1|done].
  eexists. split; [done|]. unfold after. simpl.
  assert (pure_step (sq s) (board s) = board_after st0 (S k)) as Hnext.
  { by rewrite Hsq, Hb. }
  split_and!; try done.
  - intros k' [= <-]. done.
  - intros k' _. rewrite Hnext. destruct k as [|k0].
    + by injection (H0 eq_refl) as _ ->.
    + rewrite (Hfiles k0 eq_refl). by rewrite insert_insert_eq.
  - rewrite Htrace, Hnext. unfold written.
    rewrite seq_S, bind_app, bind_singleton. simpl.
    by rewrite <- !app_assoc.
Qed.

Lemma loop_board_after :
  ∃ sw, loop_board st0 w0 = Some sw ∧ after st0 w0 (Z.to_nat (g st0)) sw.
Proof.
  unfold loop_board, for_int.
  destruct (run_over_inv (λ pre sw, after st0 w0 (length pre) sw)
              generation (seqZ 0 (g st0)) (st0, w0)) as (sw & Hrun & Hafter).
  - unfold after, written. simpl. split_and!; try done. by rewrite app_nil_r.
  - intros pre x sw _ Hpre. rewrite length_app. simpl.
    rewrite Nat.add_1_r. by apply generation_after.
  - exists sw. split; [done|]. by rewrite length_seqZ in Hafter.
Qed.

Lemma loop_board_run :
  ∃ st' w1,
    loop_board st0 w0 = Some (st', w1)
    ∧ wf st' ∧ sq st' = sq st0 ∧ writable w1 = true
    ∧ board st' = board_after st0 (Z.to_nat (g st0))
    ∧ (∀ k, Z.to_nat (g st0) = S k → board_w st' = board_after st0 k)
    ∧ (∀ k, Z.to_nat (g st0) = S k →
         files w1 = <["board"%string := render (board_after st0 (S k))]> (files w0))
    ∧ trace w1 = trace w0 ++ written st0 (Z.to_nat (g st0))
    ∧ (g st0 <= 0 → st' = st0 ∧ w1 = w0).
Proof.
  destruct loop_board_after as ([st' w1] & Hrun & Hafter).
  destruct Hafter as (Hs & Hsq & Hg & Hb & Hbw & H0 & Hwr & Hfiles & Htrace).
  exists st', w1. simpl in *. split_and!; try done.
  - intros k Hk. rewrite (Hfiles k Hk). by rewrite Hk.
  - intros Hle. assert (Z.to_nat (g st0) = 0%nat) as E by lia.
    specialize (H0 E). by injection H0 as -> ->.
Qed.

End Run.

Lemma main_usage (argv : list string) (w : world) :
  length argv ≠ 3%nat → main argv w = Some (1, emit (EPrint usage) w).
Proof.
  intros H. unfold main.
  destruct argv as [|? [|? [|? [|? ?]]]]; simpl in H; done.
Qed.

(** [atoi] on arguments of every kind: numbers, text around a number, no
    number at all, and digit strings beyond [int] and beyond [long]. *)
Lemma atoi_examples :
  atoi "42" = 42 ∧ atoi "  -12x" = -12 ∧ atoi "abc" = 0
  ∧ atoi "4294967297" = 1
  ∧ atoi "9223372036854775808" = -1
  ∧ atoi "18446744073709551617" = -1
  ∧ atoi "99999999999999999999" = -1
  ∧ atoi "-99999999999999999999" = 0.
Proof. by vm_compute. Qed.

Lemma alloc_boards_ok (st : state) (w : world) :
  (0 < sq st → allocates w = true) →
  alloc_boards st w = Some (create_board st).
Proof.
  intros H. unfold alloc_boards. destruct (Z.ltb_spec 0 (sq st)); [|done].
  by rewrite H.
Qed.

Lemma main_run (prog a1 a2 : string) (w : world) (st0 : state) :
  size_ok (atoi a1) → allocates w = true → writable w = true →
  read_board "board" (create_board (initial a1 a2)) w = Some st0 →
  ∃ st' w1,
    loop_board st0 w = Some (st', w1)
    ∧ board st' = board_after st0 (Z.to_nat (atoi a2))
    ∧ (∀ k, Z.to_nat (atoi a2) = S k → board_w st' = board_after st0 k)
    ∧ trace w1 = trace w ++ written st0 (Z.to_nat (atoi a2))
    ∧ (atoi a2 <= 0 → st' = st0 ∧ w1 = w)
    ∧ main [prog; a1; a2] w = Some (0, store "board" (render (board st')) w1).
Proof.
  intros Hn Ha Hw Hread.
  destruct (read_board_wf "board" (initial a1 a2) st0 w Hn Hread) as (Hwf & Hsq & Hg).
  simpl in Hsq, Hg.
  destruct (loop_board_run st0 w Hwf Hw)
    as (st' & w1 & Hloop & Hwf' & Hsq' & Hw1 & Hb & Hbw & _ & Htr & H0).
  rewrite Hg in *.
  exists st', w1. split_and!; try done.
  unfold main. rewrite alloc_boards_ok by done. cbn [mbind option_bind].
  rewrite Hread. simpl. rewrite Hloop. simpl.
  rewrite write_board_render; [done|apply Hwf'..|done].
Qed.


(** *** Runs for any side and any file permission *)

Lemma dims_no_rows (n : Z) (b : grid) : n <= 0 → dims n b → b = [].
Proof.
  intros Hn [Hl _]. apply length_zero_iff_nil. lia.
Qed.

Lemma step_loadable (st : state) :
  loadable st →
  step st = Some (with_board (snapshot st) (pure_step (sq st) (board st)))
  ∧ loadable (with_board (snapshot st) (pure_step (sq st) (board st))).
Proof.
  intros (Hlt & Hb & Hw & Hbin).
  destruct (Z.lt_ge_cases 0 (sq st)) as [Hpos|Hneg].
  - assert (wf st) as Hwf by (by split).
    split; [by apply step_pure_step|].
    pose proof (step_wf st _ Hwf (step_pure_step st Hwf)) as [[_ ?] ? ? ?].
    by split_and!.
  - pose proof (dims_no_rows _ _ Hneg Hb) as Eb.
    pose proof (dims_no_rows _ _ Hneg Hw) as Ew.
    split.
    + unfold step. rewrite copy_board_dims by done. simpl.
      rewrite update_cells_row_major. simpl.
      unfold row_major. rewrite seqZ_nil by done. simpl.
      unfold snapshot, with_board, with_board_w. simpl. by rewrite Eb.
    + unfold loadable. cbn [sq board board_w with_board snapshot with_board_w].
      split_and!; [done|by apply pure_step_dims|done|by apply pure_step_binary].
Qed.

Lemma write_board_put (fname : string) (st : state) (w : world) :
  dims (sq st) (board st) → binary (board st) →
  write_board fname st w = Some (put_board fname (board st) w).
Proof.
  intros Hd Hb. unfold write_board, put_board.
  destruct (writable w); [|done]. by rewrite board_text_render.
Qed.

Lemma put_board_writable (fname : string) (b : grid) (w : world) :
  writable (put_board fname b w) = writable w.
Proof. unfold put_board. by destruct (writable w) eqn:E. Qed.

Lemma world_after_writable (st0 : state) (w0 : world) (k : nat) :
  writable (world_after st0 w0 k) = writable w0.
Proof.
  induction k as [|k IH]; [done|]. simpl. by rewrite put_board_writable.
Qed.

Lemma open_error_not_usage : EPrint (open_error "board") ≠ EPrint usage.
Proof. by vm_compute. Qed.

Lemma put_board_trace (b : grid) (w : world) :
  ∃ e, trace (put_board "board" b w) = trace w ++ [e] ∧ e ≠ EPrint usage.
Proof.
  unfold put_board. destruct (writable w); eexists; (split; [done|]).
  - done.
  - apply open_error_not_usage.
Qed.

Lemma world_after_trace (st0 : state) (w0 : world) (k : nat) :
  ∃ tr, trace (world_after st0 w0 k) = trace w0 ++ tr ∧ EPrint usage ∉ tr.
Proof.
  induction k as [|k (tr & Htr & Hno)].
  - exists []. split; [by rewrite app_nil_r|]. by intros ?%elem_of_nil.
  - cbn [world_after].
    destruct (put_board_trace (board_after st0 (S k))
                (emit (ESleep 0) (world_after st0 w0 k))) as (e & -> & He).
    exists (tr ++ [ESleep 0; e]). simpl. rewrite Htr.
    split; [by rewrite <- !app_assoc|].
    rewrite elem_of_app, !elem_of_cons, elem_of_nil.
    intros [?|[?|[?|?]]]; congruence.
Qed.

Lemma loop_board_any (st0 : state) (w0 : world) :
  loadable st0 →
  ∃ st', loop_board st0 w0
         = Some (st', world_after st0 w0 (Z.to_nat (g st0)))
         ∧ loadable st' ∧ sq st' = sq st0
         ∧ board st' = board_after st0 (Z.to_nat (g st0)).
Proof.
  intros Hload. unfold loop_board, for_int.
  destruct (run_over_inv (after_any st0 w0) generation (seqZ 0 (g st0)) (st0, w0))
    as ([st' w'] & Hrun & Hl & Hsq & _ & Hb & Hw).
  - by unfold after_any.
  - intros pre x [s w] _ (Hs & Hsq & Hg & Hb & Hw). simpl in *.
    destruct (step_loadable s Hs) as [Hstep Hs'].
    unfold generation. simpl. rewrite Hstep. simpl.
    rewrite write_board_put; [|apply Hs'..].
    eexists. split; [done|]. unfold after_any.
    rewrite length_app, Nat.add_1_r.
    assert (pure_step (sq s) (board s) = board_after st0 (S (length pre))) as Hnext.
    { unfold board_after in *. simpl. by rewrite Hsq, Hb. }
    split_and!; cbn [fst snd sq g board with_board snapshot with_board_w world_after];
      [done|done|done|done|by rewrite Hnext, Hw].
  - simpl in *. rewrite length_seqZ in Hb, Hw. subst w'.
    exists st'. by split_and!.
Qed.

Lemma read_board_loadable (fname : string) (st st' : state) (w : world) :
  sq st < 2 ^ 30 → read_board fname (create_board st) w = Some st' →
  loadable st' ∧ sq st' = sq st ∧ g st' = g st.
Proof.
  intros Hn H. unfold read_board in H.
  destruct (files w !! fname) as [cs|]; [|done]. cbn [mbind option_bind] in H.
  destruct (read_chars cs 0 0 (board (create_board st))) as [b|] eqn:E; [|done].
  injection H as <-.
  assert (dims (sq st) (replicate (Z.to_nat (sq st)) (replicate (Z.to_nat (sq st)) 0)))
    as Hd.
  { split; [by rewrite length_replicate|].
    apply Forall_replicate. by rewrite length_replicate. }
  destruct (create_board_binary st) as [B1 _].
  split; [|done]. split_and!; simpl; [done| |done|].
  - by eapply read_chars_dims.
  - by eapply read_chars_binary.
Qed.

Lemma main_run_any (prog a1 a2 : string) (w : world) (st0 : state) :
  atoi a1 < 2 ^ 30 → (0 < atoi a1 → allocates w = true) →
  read_board "board" (create_board (initial a1 a2)) w = Some st0 →
  ∃ st',
    loop_board st0 w = Some (st', world_after st0 w (Z.to_nat (atoi a2)))
    ∧ board st' = board_after st0 (Z.to_nat (atoi a2))
    ∧ sq st0 = atoi a1
    ∧ main [prog; a1; a2] w
      = Some (0, put_board "board" (board st')
                   (world_after st0 w (Z.to_nat (atoi a2)))).
Proof.
  intros Hn Ha Hread.
  destruct (read_board_loadable "board" (initial a1 a2) st0 w Hn Hread)
    as (Hload & Hsq & Hg).
  simpl in Hsq, Hg.
  destruct (loop_board_any st0 w Hload) as (st' & Hloop & Hload' & Hsq' & Hb).
  rewrite Hg in *. exists st'. split_and!; try done.
  unfold main. rewrite alloc_boards_ok by done. cbn [mbind option_bind].
  rewrite Hread. simpl. rewrite Hloop. simpl.
  rewrite write_board_put; [done|apply Hload'..].
Qed.

(** C6, as the program has it: with an argument count other than two
    ([argc] not 3) the program prints the usage message and returns 1, and
    neither the file system nor the trace sees a write.  With two
    arguments, numbers or not, which [atoi] reads as a side [n] and a
    count [G] (0 for an argument that is no number), the program does not
    print the usage message: provided the boards are allocated and the
    board file loads (into [st0]), it runs the simulation, max(G, 0)
    generations from the loaded board, each followed by a pause and a
    call of [write_board], calls [write_board] once more and returns 0,
    whether or not the file can be written. *)
Theorem main_exit_status :
  (∀ argv w, length argv ≠ 3%nat →
     ∃ w', main argv w = Some (1, w')
           ∧ files w' = files w ∧ trace w' = trace w ++ [EPrint usage])
  ∧ (∀ prog a1 a2 w st0,
       atoi a1 < 2 ^ 30 → (0 < atoi a1 → allocates w = true) →
       read_board "board" (create_board (initial a1 a2)) w = Some st0 →
       let G := Z.to_nat (atoi a2) in
       ∃ st' w1,
         loop_board st0 w = Some (st', w1)
         ∧ board st' = Nat.iter G (pure_step (atoi a1)) (board st0)
         ∧ w1 = world_after st0 w G
         ∧ main [prog; a1; a2] w = Some (0, put_board "board" (board st') w1)
         ∧ ∃ tr, trace (put_board "board" (board st') w1) = trace w ++ tr
                 ∧ EPrint usage ∉ tr).
Proof.
  split.
  - intros argv w H. rewrite main_usage by done. by eexists.
  - intros prog a1 a2 w st0 Hn Ha Hread G.
    destruct (main_run_any prog a1 a2 w st0 Hn Ha Hread)
      as (st' & Hloop & Hb & Hsq & Hmain).
    exists st', (world_after st0 w G). split_and!; try done.
    + rewrite Hb. unfold board_after. by rewrite Hsq.
    + destruct (world_after_trace st0 w G) as (tr & Htr & Hno).
      destruct (put_board_trace (board st') (world_after st0 w G)) as (e & -> & He).
      exists (tr ++ [e]). rewrite Htr. split; [by rewrite <- app_assoc|].
      rewrite elem_of_app, elem_of_cons, elem_of_nil.
      intros [?|[?|?]]; congruence.
Qed.

(** ** Reading back what [write_board] wrote *)

Lemma read_chars_symbol (c : Z) (rest : list ascii) (x y : Z) (B : grid) :
  c = DEAD ∨ c = ALIVE →
  read_chars (symbol_of c :: rest) x y B
  = set_cell B x y c ≫= read_chars rest (CInt.add x 1) y.
Proof. by intros [-> | ->]. Qed.

Lemma read_chars_nl (rest : list ascii) (x y : Z) (B : grid) :
  read_chars (nl :: rest) x y B = read_chars rest 0 (CInt.add y 1) B.
Proof. done. Qed.

(** One line of the file: its k-th character lands in row [x0 + k],
    column [y], where [y] is the number of the line. *)
Lemma read_chars_line (n : Z) (r : list Z) (rest : list ascii) (x0 y : Z) (B : grid) :
  n < 2 ^ 30 → dims n B → Forall (λ c, c = DEAD ∨ c = ALIVE) r →
  0 <= y < n → 0 <= x0 → x0 + Z.of_nat (length r) <= n →
  ∃ B', read_chars ((symbol_of <$> r) ++ nl :: rest) x0 y B
        = read_chars rest 0 (y + 1) B'
        ∧ dims n B'
        ∧ ∀ i j, cell_at B' i j
                 = if decide (j = y ∧ x0 <= i < x0 + Z.of_nat (length r))
                   then r !! Z.to_nat (i - x0) else cell_at B i j.
Proof.
  intros Hn. revert x0 B.
  induction r as [|c r IH]; intros x0 B Hd Hr Hy Hx0 Hlen.
  - exists B. rewrite fmap_nil. cbn [app]. rewrite read_chars_nl, add_small by lia.
    split_and!; [done..|]. intros i j. simpl in *. case_decide; [lia|done].
  - apply Forall_cons in Hr as [Hc Hr]. simpl in Hlen.
    rewrite fmap_cons. cbn [app]. rewrite read_chars_symbol by done.
    destruct (set_cell_dims n B x0 y c Hd) as (B1 & Hset & Hd1); [lia..|].
    rewrite Hset. cbn [mbind option_bind]. rewrite add_small by lia.
    destruct (IH (x0 + 1) B1 Hd1 Hr Hy) as (B' & Hrun & Hd' & Hcells); [lia..|].
    exists B'. split_and!; [done..|].
    intros i j. rewrite Hcells, (cell_at_set_cell _ _ _ _ _ i j Hset).
    cbn [length].
    destruct (decide (j = y ∧ x0 + 1 <= i < x0 + 1 + Z.of_nat (length r)))
      as [[-> Hi]|Hout].
    + rewrite decide_True by lia.
      replace (Z.to_nat (i - x0)) with (S (Z.to_nat (i - (x0 + 1)))) by lia.
      done.
    + destruct (decide (i = x0 ∧ j = y)) as [[-> ->]|Hne].
      * rewrite decide_True by lia. by rewrite Z.sub_diag.
      * rewrite decide_False by lia. done.
Qed.

Lemma render_cons (r : list Z) (rows : grid) :
  render (r :: rows) = (symbol_of <$> r) ++ nl :: render rows.
Proof. unfold render. rewrite bind_cons. by rewrite <- app_assoc. Qed.

Lemma read_chars_lines (n : Z) (rows : grid) (y0 : Z) (B : grid) :
  n < 2 ^ 30 → dims n B →
  Forall (λ r, length r = Z.to_nat n ∧ Forall (λ c, c = DEAD ∨ c = ALIVE) r) rows →
  0 <= y0 → y0 + Z.of_nat (length rows) <= n →
  ∃ B', read_chars (render rows) 0 y0 B = Some B'
        ∧ dims n B'
        ∧ ∀ i j, 0 <= i < n →
            cell_at B' i j
            = if decide (y0 <= j < y0 + Z.of_nat (length rows))
              then rows !! Z.to_nat (j - y0) ≫= (λ r, r !! Z.to_nat i)
              else cell_at B i j.
Proof.
  intros Hn. revert y0 B.
  induction rows as [|r rows IH]; intros y0 B Hd Hrows Hy0 Hlen.
  - exists B. split_and!; [done..|]. intros i j Hi. simpl. case_decide; [lia|done].
  - apply Forall_cons in Hrows as [[Hlr Hr] Hrows]. simpl in Hlen.
    rewrite render_cons.
    destruct (read_chars_line n r (render rows) 0 y0 B Hn Hd Hr)
      as (B1 & -> & Hd1 & Hc1); [lia..|].
    destruct (IH (y0 + 1) B1 Hd1 Hrows) as (B' & Hrun & Hd' & Hcells); [lia..|].
    exists B'. split_and!; [done..|].
    intros i j Hi. rewrite Hcells, Hc1 by done. cbn [length].
    destruct (decide (y0 + 1 <= j < y0 + 1 + Z.of_nat (length rows))) as [Hj|Hj].
    + rewrite decide_True by lia.
      replace (Z.to_nat (j - y0)) with (S (Z.to_nat (j - (y0 + 1)))) by lia.
      done.
    + destruct (decide (j = y0 ∧ 0 <= i < 0 + Z.of_nat (length r))) as [[-> Hi']|Hne].
      * rewrite decide_True by lia. rewrite Z.sub_diag, Z.sub_0_r. done.
      * rewrite decide_False by lia. done.
Qed.

Lemma read_chars_render (n : Z) (b B : grid) :
  size_ok n → dims n b → binary b → dims n B →
  read_chars (render b) 0 0 B = Some (transpose n b).
Proof.
  intros Hn Hd Hb HB. pose proof Hd as [Hl Hrows]. unfold size_ok in Hn.
  destruct (read_chars_lines n b 0 B) as (B' & -> & Hd' & Hcells);
    [lia|done| |lia|lia|].
  { unfold binary in Hb. rewrite Forall_forall in Hrows, Hb.
    apply Forall_forall. intros r Hr. split; [by apply Hrows|by apply Hb]. }
  f_equal. apply (grid_ext n); [done|apply tabulate_dims|].
  intros i j Hi Hj. unfold transpose. rewrite cell_at_tabulate, Hcells by done.
  rewrite decide_True by lia. rewrite Z.sub_0_r.
  rewrite <- (cell_at_dims n b j i) by done.
  unfold cell_at, row_at.
  destruct (Z.ltb_spec j 0); [lia|]. destruct (Z.ltb_spec i 0); [lia|]. done.
Qed.

(** Writing a board and reading the file back exchanges rows and columns. *)
Lemma write_read_transposes (st st1 : state) (w : world) :
  size_ok (sq st) → dims (sq st) (board st) → binary (board st) →
  writable w = true → dims (sq st) (board st1) →
  ∃ w', write_board "board" st w = Some w'
        ∧ read_board "board" st1 w'
          = Some (with_board st1 (transpose (sq st) (board st))).
Proof.
  intros Hn Hd Hb Hw Hd1. rewrite write_board_render by done.
  eexists. split; [done|]. unfold read_board, store. simpl.
  rewrite lookup_insert_eq. simpl.
  by rewrite (read_chars_render (sq st)).
Qed.

(** ** The properties on concrete boards *)

Lemma step_applies_rules_witness :
  wf (loaded 5 1 blinker5) ∧ 0 <= 1 < 5 ∧ 0 <= 2 < 5
  ∧ ∃ st',
      step (loaded 5 1 blinker5) = Some st'
      ∧ cell_at blinker5 1 2 = Some DEAD
      ∧ count_neighbors (snapshot (loaded 5 1 blinker5)) 1 2 = Some 3
      ∧ moore_count 5 blinker5 1 2 = 3
      ∧ cell_at (board st') 1 2 = Some ALIVE.
Proof.
  assert (wf (loaded 5 1 blinker5)) as Hwf by (by apply wfb_spec).
  split_and!; [assumption|lia..|].
  destruct (step_applies_rules (loaded 5 1 blinker5) 1 2 Hwf)
    as (st' & c & k & c' & H1 & H2 & H3 & H4 & H5 & H6 & _); [simpl; lia..|].
  assert (c = DEAD) as -> by (vm_compute in H2; injection H2 as <-; reflexivity).
  assert (k = 3) as -> by (rewrite H4; reflexivity).
  assert (c' = ALIVE) as -> by (rewrite H6; reflexivity).
  exists st'. split_and!; [exact H1|reflexivity|exact H3|reflexivity|exact H5].
Defined.

Lemma origin3_lone : lone_origin 3 origin3.
Proof.
  intros i j Hi Hj.
  assert (i = 0 ∨ i = 1 ∨ i = 2) as [-> | [-> | ->]] by lia;
    assert (j = 0 ∨ j = 1 ∨ j = 2) as [-> | [-> | ->]] by lia; done.
Qed.

Lemma count_neighbors_toroidal_witness :
  size_ok 3 ∧ dims 3 origin3 ∧ binary origin3
  ∧ count_neighbors (snapshot (loaded 3 0 origin3)) 2 2 = Some (moore_count 3 origin3 2 2)
  ∧ Forall (counts_some (snapshot (loaded 3 0 origin3)))
      [(2, 2); (2, 0); (2, 1); (0, 2); (0, 1); (1, 2); (1, 0); (1, 1)].
Proof.
  assert (size_ok 3) as Hn by (unfold size_ok; lia).
  assert (dims 3 origin3) as Hd by (by apply dimsb_spec).
  assert (binary origin3) as Hb by (by apply binaryb_spec).
  split_and!; [done..| |].
  - apply (count_neighbors_toroidal (snapshot (loaded 3 0 origin3)) Hn Hd Hb); simpl; lia.
  - apply (count_neighbors_toroidal (snapshot (loaded 3 0 origin3)) Hn Hd Hb).
    + apply origin3_lone.
    + simpl. lia.
Defined.

Lemma step_refines_pure_step_witness :
  wf (loaded 5 1 blinker5)
  ∧ (∃ st', step (loaded 5 1 blinker5) = Some st' ∧ board st' = pure_step 5 blinker5)
  ∧ ∃ st', (bw ← copy_board 5 blinker5 (board_w (loaded 5 1 blinker5));
            run_over update_at (reverse (row_major 5))
              (with_board_w (loaded 5 1 blinker5) bw)) = Some st'
           ∧ board st' = pure_step 5 blinker5.
Proof.
  assert (wf (loaded 5 1 blinker5)) as Hwf by (by apply wfb_spec).
  destruct (step_refines_pure_step (loaded 5 1 blinker5) Hwf) as [H1 H2].
  split_and!; [done..|].
  apply (H2 (reverse (row_major 5))).
  - apply Forall_reverse, row_major_in_board.
  - intros i j Hi Hj. apply elem_of_reverse, elem_of_row_major. simpl in *. lia.
Defined.

Lemma accesses_in_bounds_witness :
  0 < 3 ∧ dims 3 blinker3 ∧ 0 <= 0 < 3 ∧ 0 <= 2 < 3
  ∧ idx_prev 3 0 = Some (Z.rem (0 - 1 + 3) 3)
  ∧ idx_next 3 2 = Some (Z.rem (2 + 1 + 3) 3)
  ∧ is_Some (count_neighbors (loaded 3 1 blinker3) 0 2)
  ∧ is_Some (update_cell 0 2 (loaded 3 1 blinker3))
  ∧ is_Some (step (loaded 3 1 blinker3)).
Proof.
  assert (0 < 3) as Hn by lia.
  assert (dims 3 blinker3) as Hd by (by apply dimsb_spec).
  assert (dims 3 (board_w (loaded 3 1 blinker3))) as Hw by (by apply dimsb_spec).
  destruct (accesses_in_bounds (loaded 3 1 blinker3) 0 2 Hn Hd Hw)
    as (_ & Hcode); [simpl; lia..|].
  destruct Hcode as (H1 & _ & _ & H2 & H3 & H4 & H5); [simpl; lia|].
  split_and!; (assumption || lia).
Defined.

Lemma corners4_block : is_block 4 3 3 corners4.
Proof.
  intros i j Hi Hj.
  assert (i = 0 ∨ i = 1 ∨ i = 2 ∨ i = 3) as [-> | [-> | [-> | ->]]] by lia;
    assert (j = 0 ∨ j = 1 ∨ j = 2 ∨ j = 3) as [-> | [-> | [-> | ->]]] by lia; done.
Qed.

Lemma block_still_life_witness :
  wf (loaded 4 3 corners4) ∧ 4 <= 4 ∧ 0 <= 3 < 4 ∧ is_block 4 3 3 corners4
  ∧ ∃ st', steps 3 (loaded 4 3 corners4) = Some st' ∧ board st' = corners4.
Proof.
  assert (wf (loaded 4 3 corners4)) as Hwf by (by apply wfb_spec).
  pose proof corners4_block as Hblock.
  assert (∃ st', steps 3 (loaded 4 3 corners4) = Some st' ∧ board st' = corners4)
    as Hfix.
  { apply (block_still_life (loaded 4 3 corners4) 3 3 3 Hwf); simpl;
      (lia || assumption). }
  split_and!; (assumption || lia).
Defined.

Lemma blinker5_row : is_row_blinker 5 2 2 blinker5.
Proof.
  intros i j Hi Hj.
  assert (i = 0 ∨ i = 1 ∨ i = 2 ∨ i = 3 ∨ i = 4)
    as [-> | [-> | [-> | [-> | ->]]]] by lia;
    assert (j = 0 ∨ j = 1 ∨ j = 2 ∨ j = 3 ∨ j = 4)
      as [-> | [-> | [-> | [-> | ->]]]] by lia; done.
Qed.

Lemma blinker_period_two_witness :
  wf (loaded 5 2 blinker5) ∧ 4 <= 5 ∧ 0 <= 2 < 5 ∧ is_row_blinker 5 2 2 blinker5
  ∧ ∃ st1 st2,
      step (loaded 5 2 blinker5) = Some st1 ∧ is_col_blinker 5 2 2 (board st1)
      ∧ step st1 = Some st2 ∧ board st2 = blinker5.
Proof.
  assert (wf (loaded 5 2 blinker5)) as Hwf by (by apply wfb_spec).
  pose proof blinker5_row as Hrow.
  assert (∃ st1 st2,
      step (loaded 5 2 blinker5) = Some st1 ∧ is_col_blinker 5 2 2 (board st1)
      ∧ step st1 = Some st2 ∧ board st2 = blinker5) as Hperiod.
  { apply (blinker_period_two (loaded 5 2 blinker5) 2 2 Hwf); simpl;
      (lia || assumption). }
  split_and!; (assumption || lia).
Defined.

(** C8 as stated fails: on the 3 by 3 board every cell is a neighbour of
    every other one, so the three dead cells above and the three below the
    middle row all count three neighbours; one generation makes the whole
    board ALIVE instead of the middle column, and the next one makes it
    all DEAD instead of giving the row back. *)
Lemma blinker3_fills_board :
  (board <$> step (loaded 3 2 blinker3)) = Some full3
  ∧ (board <$> step (loaded 3 2 blinker3)) ≠ Some column3
  ∧ (board <$> steps 2 (loaded 3 2 blinker3)) ≠ Some blinker3.
Proof. split_and!; [by vm_compute|by vm_compute..]. Qed.

(** C3 fails on the code: [write_board] puts row [i] of the board on line
    [i] of the file, [read_board] puts line [y] of the file into column
    [y] of the board.  The 2 by 2 board with rows 0 1 and 0 0 is written
    as the lines -# and --, and reading them back gives the rows 0 0 and
    1 0, which is another board. *)
Theorem write_read_skew2 :
  ∃ w', write_board "board" (loaded 2 0 skew2) (world_with []) = Some w'
        ∧ files w' !! "board"%string
          = Some [ch_dead; ch_alive; nl; ch_dead; ch_dead; nl]
        ∧ read_board "board" (create_board (loaded 2 0 [])) w'
          = Some (loaded 2 0 skew2_read)
        ∧ read_board "board" (loaded 2 0 skew2) w'
          = Some (loaded 2 0 skew2_read)
        ∧ skew2_read ≠ skew2.
Proof. eexists. split_and!; [by vm_compute..|done]. Qed.


Lemma main_exit_status_witness :
  (∃ w', main ["./main.o"; "5"]%string (world_with (render blinker5)) = Some (1, w')
         ∧ files w' = files (world_with (render blinker5))
         ∧ trace w' = [EPrint usage])
  ∧ (atoi "5" < 2 ^ 30
     ∧ read_board "board" (create_board (initial "5" "2")) (world_with (render blinker5))
       = Some (loaded 5 2 column5)
     ∧ ∃ st' w1,
         loop_board (loaded 5 2 column5) (world_with (render blinker5)) = Some (st', w1)
         ∧ board st' = Nat.iter 2 (pure_step 5) column5
         ∧ main ["./main.o"; "5"; "2"]%string (world_with (render blinker5))
           = Some (0, put_board "board" (board st') w1))
  ∧ (atoi "abc" < 2 ^ 30
     ∧ read_board "board" (create_board (initial "abc" "xyz")) (world_readonly [])
       = Some (create_board (initial "abc" "xyz"))
     ∧ ∃ st' w1,
         main ["./main.o"; "abc"; "xyz"]%string (world_readonly [])
         = Some (0, put_board "board" (board st') w1)).
Proof.
  destruct main_exit_status as [Husage Hrun].
  assert (atoi "5" < 2 ^ 30) as Hn by (by vm_compute).
  assert (atoi "abc" < 2 ^ 30) as Hn' by (by vm_compute).
  assert (read_board "board" (create_board (initial "5" "2"))
            (world_with (render blinker5)) = Some (loaded 5 2 column5)) as Hread
    by (by vm_compute).
  assert (read_board "board" (create_board (initial "abc" "xyz")) (world_readonly [])
          = Some (create_board (initial "abc" "xyz"))) as Hread'
    by (by vm_compute).
  split_and!; [|assumption|assumption| |assumption|assumption|].
  - apply (Husage ["./main.o"; "5"]%string (world_with (render blinker5))).
    simpl. lia.
  - destruct (Hrun "./main.o" "5" "2" (world_with (render blinker5))
                (loaded 5 2 column5) Hn (λ _, eq_refl) Hread)%string
      as (st' & w1 & H1 & H2 & _ & H4 & _).
    exists st', w1. split_and!; [exact H1|exact H2|exact H4].
  - destruct (Hrun "./main.o" "abc" "xyz" (world_readonly [])
                (create_board (initial "abc" "xyz")) Hn' (λ _, eq_refl) Hread')%string
      as (st' & w1 & _ & _ & _ & H4 & _).
    exists st', w1. exact H4.
Defined.

(** C6 as stated fails: two arguments that are not numbers are read by
    [atoi] as 0 and 0; with an empty board file the program prints no usage
    message, rewrites the board file and returns 0. *)
Lemma nonnumeric_arguments_accepted :
  main ["./main.o"; "abc"; "xyz"]%string (world_with [])
  = Some (0, store "board" [] (world_with []))
  ∧ ¬ ∃ w', main ["./main.o"; "abc"; "xyz"]%string (world_with []) = Some (1, w').
Proof.
  split; [by vm_compute|]. intros [w' H]. vm_compute in H. done.
Qed.

Lemma cells_stay_binary_witness :
  binary blinker3 ∧ binary (board_w (loaded 3 1 blinker3))
  ∧ (∀ st', read_board "board" (loaded 3 1 blinker3) (world_with (render blinker3))
            = Some st' → binary (board st') ∧ binary (board_w st'))
  ∧ (∀ st', step (loaded 3 1 blinker3) = Some st' →
            binary (board st') ∧ binary (board_w st'))
  ∧ (∀ k, count_neighbors (snapshot (loaded 3 1 blinker3)) 1 1 = Some k → 0 <= k <= 8)
  ∧ is_Some (read_board "board" (loaded 3 1 blinker3) (world_with (render blinker3)))
  ∧ is_Some (step (loaded 3 1 blinker3))
  ∧ count_neighbors (snapshot (loaded 3 1 blinker3)) 1 1 = Some 2.
Proof.
  assert (binary blinker3) as Hb by (by apply binaryb_spec).
  assert (binary (board_w (loaded 3 1 blinker3))) as Hw by (by apply binaryb_spec).
  split_and!; [assumption|assumption|..].
  - apply (cells_stay_binary (loaded 3 1 blinker3) (loaded 3 1 blinker3) "board"
             (world_with (render blinker3)) 1 1 Hb Hw).
  - apply (cells_stay_binary (loaded 3 1 blinker3) (loaded 3 1 blinker3) "board"
             (world_with (render blinker3)) 1 1 Hb Hw).
  - apply (cells_stay_binary (loaded 3 1 blinker3) (snapshot (loaded 3 1 blinker3))
             "board" (world_with (render blinker3)) 1 1 Hb Hb).
  - eexists. vm_compute. reflexivity.
  - eexists. vm_compute. reflexivity.
  - by vm_compute.
Defined.

(** * Further properties of the program *)

(** ** Boards that are all DEAD or all ALIVE *)

Lemma cell_pure_step (n : Z) (b : grid) (i j : Z) :
  dims n b → 0 <= i < n → 0 <= j < n →
  cell (pure_step n b) i j = next_cell n b i j.
Proof.
  intros Hd Hi Hj. unfold cell at 1. by rewrite cell_at_pure_step.
Qed.

Lemma moore_count_uniform (n : Z) (b : grid) (v i j : Z) :
  0 < n → (∀ i j, 0 <= i < n → 0 <= j < n → cell b i j = v) →
  0 <= i < n → 0 <= j < n → moore_count n b i j = 8 * v.
Proof.
  intros Hn Hall Hi Hj. unfold moore_count.
  pose proof (mod_in_range n (i - 1) Hn). pose proof (mod_in_range n (i + 1) Hn).
  pose proof (mod_in_range n (j - 1) Hn). pose proof (mod_in_range n (j + 1) Hn).
  rewrite !Hall by done. lia.
Qed.

(** X1: a generation never creates life from nothing: on a well-formed
    board whose cells are all DEAD, any number of generations returns and
    leaves the board as it is. *)
Theorem dead_board_stays_dead (st : state) (k : nat) :
  wf st →
  (∀ i j, 0 <= i < sq st → 0 <= j < sq st → cell (board st) i j = DEAD) →
  ∃ st', steps k st = Some st' ∧ board st' = board st.
Proof.
  intros Hwf Hdead. pose proof Hwf as [Hn Hb Hw Hbin].
  destruct (steps_fixed k st Hwf) as (st' & Hrun & Hsame & _); [|by exists st'].
  apply (grid_ext (sq st)); [by apply pure_step_dims|done|].
  intros i j Hi Hj. rewrite cell_at_pure_step, (cell_at_dims (sq st) (board st)) by done.
  f_equal. unfold next_cell.
  rewrite (moore_count_uniform (sq st) (board st) DEAD), Hdead by (done || apply Hn).
  done.
Qed.

(** X2: on a well-formed board of any side whose cells are all ALIVE, every
    cell counts eight ALIVE neighbours (on the small boards the same cell
    is counted several times), so one generation leaves every cell DEAD. *)
Theorem full_board_dies (st : state) :
  wf st →
  (∀ i j, 0 <= i < sq st → 0 <= j < sq st → cell (board st) i j = ALIVE) →
  ∃ st', step st = Some st'
         ∧ (∀ i j, 0 <= i < sq st → 0 <= j < sq st →
              count_neighbors (snapshot st) i j = Some 8)
         ∧ ∀ i j, 0 <= i < sq st → 0 <= j < sq st → cell (board st') i j = DEAD.
Proof.
  intros Hwf Hfull. pose proof Hwf as [Hn Hb Hw Hbin].
  rewrite step_pure_step by done. eexists. split; [done|]. split.
  - intros i j Hi Hj.
    destruct (count_neighbors_moore (snapshot st) i j) as [-> _]; [done..|].
    simpl. by rewrite (moore_count_uniform (sq st) (board st) ALIVE) by (done || apply Hn).
  - intros i j Hi Hj. simpl. rewrite cell_pure_step by done. unfold next_cell.
    rewrite (moore_count_uniform (sq st) (board st) ALIVE), Hfull by (done || apply Hn).
    done.
Qed.

(** ** Boards of side 1 and 2 *)

Lemma wrap_same_neighbour (n k : Z) :
  0 < n <= 2 → (k - 1) mod n = (k + 1) mod n.
Proof.
  intros Hn. replace (k + 1) with (k - 1 + 2) by lia.
  rewrite <- (Z.add_mod_idemp_r (k - 1) 2 n) by lia.
  assert (2 mod n = 0) as ->.
  { assert (n = 1 ∨ n = 2) as [-> | ->] by lia; done. }
  by rewrite Z.add_0_r.
Qed.

(** X3: on a board of side 1 or 2 the two neighbours of a coordinate
    coincide, so every count is even; the count is never 3 and no DEAD
    cell ever becomes ALIVE: after a generation every ALIVE cell was
    already ALIVE. *)
Theorem small_board_no_birth (st : state) (i j : Z) :
  wf st → sq st <= 2 → 0 <= i < sq st → 0 <= j < sq st →
  ∃ st' k, step st = Some st'
           ∧ count_neighbors (snapshot st) i j = Some (2 * k)
           ∧ (cell (board st') i j = ALIVE → cell (board st) i j = ALIVE).
Proof.
  intros Hwf Hsmall Hi Hj. pose proof Hwf as [Hn Hb Hw Hbin].
  assert (0 < sq st) as Hpos by apply Hn.
  rewrite step_pure_step by done.
  destruct (count_neighbors_moore (snapshot st) i j) as [-> _]; [done..|]. simpl.
  pose proof (mod_in_range (sq st) (i + 1) Hpos) as Hip.
  pose proof (mod_in_range (sq st) (j + 1) Hpos) as Hjp.
  pose proof (cell_binary _ _ _ _ Hb Hbin Hip Hj) as B1.
  pose proof (cell_binary _ _ _ _ Hb Hbin Hi Hjp) as B2.
  pose proof (cell_binary _ _ _ _ Hb Hbin Hip Hjp) as B3.
  pose proof (cell_binary _ _ _ _ Hb Hbin Hi Hj) as B0.
  exists (with_board (snapshot st) (pure_step (sq st) (board st))),
    (cell (board st) ((i + 1) mod sq st) j + cell (board st) i ((j + 1) mod sq st)
     + 2 * cell (board st) ((i + 1) mod sq st) ((j + 1) mod sq st)).
  assert (moore_count (sq st) (board st) i j
          = 2 * (cell (board st) ((i + 1) mod sq st) j
                 + cell (board st) i ((j + 1) mod sq st)
                 + 2 * cell (board st) ((i + 1) mod sq st) ((j + 1) mod sq st)))
    as Hcount.
  { unfold moore_count.
    rewrite !(wrap_same_neighbour (sq st) i), !(wrap_same_neighbour (sq st) j) by lia.
    lia. }
  split_and!; [done|by rewrite Hcount|].
  simpl. rewrite cell_pure_step by done. unfold next_cell. rewrite Hcount.
  unfold rule, DEAD, ALIVE in *.
  destruct B0 as [-> | ->]; [|done].
  repeat case_match; try done; lia.
Qed.

(** ** Symmetries of the update *)

Lemma cell_tabulate (n : Z) (f : Z → Z → Z) (i j : Z) :
  0 <= i < n → 0 <= j < n → cell (tabulate n f) i j = f i j.
Proof. intros Hi Hj. unfold cell. by rewrite cell_at_tabulate. Qed.

Lemma tabulate_ext (n : Z) (f : Z → Z → Z) (b : grid) :
  dims n b → (∀ i j, 0 <= i < n → 0 <= j < n → cell b i j = f i j) →
  b = tabulate n f.
Proof.
  intros Hd Hf. apply (grid_ext n); [done|apply tabulate_dims|].
  intros i j Hi Hj. rewrite cell_at_tabulate, (cell_at_dims n b) by done.
  f_equal. by apply Hf.
Qed.

Lemma tabulate_wf_board (n : Z) (b : grid) (f : Z → Z → Z) :
  dims n b → binary b →
  (∀ i j, 0 <= i < n → 0 <= j < n →
     ∃ i' j', 0 <= i' < n ∧ 0 <= j' < n ∧ f i j = cell b i' j') →
  binary (tabulate n f).
Proof.
  intros Hd Hb Hf. apply tabulate_binary. intros i j Hi Hj.
  destruct (Hf i j Hi Hj) as (i' & j' & Hi' & Hj' & ->).
  by apply (cell_binary n).
Qed.

Lemma with_board_wf (st : state) (b : grid) :
  wf st → dims (sq st) b → binary b → wf (with_board st b).
Proof. intros [Hn Hb Hw Hbin] Hd Hbb. by split. Qed.

Lemma moore_count_transpose (n : Z) (b : grid) (i j : Z) :
  0 < n → 0 <= i < n → 0 <= j < n →
  moore_count n (transpose n b) i j = moore_count n b j i.
Proof.
  intros Hn Hi Hj. unfold moore_count, transpose.
  pose proof (mod_in_range n (i - 1) Hn). pose proof (mod_in_range n (i + 1) Hn).
  pose proof (mod_in_range n (j - 1) Hn). pose proof (mod_in_range n (j + 1) Hn).
  rewrite !cell_tabulate by done. lia.
Qed.

Lemma pure_step_transpose (n : Z) (b : grid) :
  0 < n → dims n b →
  pure_step n (transpose n b) = transpose n (pure_step n b).
Proof.
  intros Hn Hd. apply tabulate_ext.
  - apply pure_step_dims, tabulate_dims.
  - intros i j Hi Hj.
    rewrite !cell_pure_step by (done || apply tabulate_dims).
    unfold next_cell. rewrite moore_count_transpose by done.
    unfold transpose. by rewrite cell_tabulate.
Qed.

Lemma transpose_binary (n : Z) (b : grid) :
  dims n b → binary b → binary (transpose n b).
Proof.
  intros Hd Hb. apply (tabulate_wf_board n b); [done..|].
  intros i j Hi Hj. by exists j, i.
Qed.

Lemma iter_pure_step_dims (n : Z) (b : grid) (k : nat) :
  dims n b → dims n (Nat.iter k (pure_step n) b).
Proof. intros Hd. induction k; simpl; [done|by apply pure_step_dims]. Qed.

Lemma iter_pure_step_transpose (n : Z) (b : grid) (k : nat) :
  0 < n → dims n b →
  Nat.iter k (pure_step n) (transpose n b)
  = transpose n (Nat.iter k (pure_step n) b).
Proof.
  intros Hn Hd. induction k as [|k IH]; simpl; [done|].
  rewrite IH. apply pure_step_transpose; [done|by apply iter_pure_step_dims].
Qed.

(** X4: the update does not tell rows from columns: a generation on the
    transposed board gives the transpose of what a generation gives on the
    board itself. *)
Theorem step_commutes_with_transpose (st : state) :
  wf st →
  ∃ st1 st2,
    step st = Some st1
    ∧ step (with_board st (transpose (sq st) (board st))) = Some st2
    ∧ board st2 = transpose (sq st) (board st1).
Proof.
  intros Hwf. pose proof Hwf as [Hn Hb Hw Hbin].
  assert (wf (with_board st (transpose (sq st) (board st)))) as Hwf'.
  { apply with_board_wf; [done|apply tabulate_dims|by apply transpose_binary]. }
  rewrite !step_pure_step by done. do 2 eexists. split_and!; [done..|].
  simpl. apply pure_step_transpose; [apply Hn|done].
Qed.

Lemma shift_index (n i a d : Z) :
  0 < n → ((i + d) mod n + a) mod n = ((i + a) mod n + d) mod n.
Proof.
  intros Hn. rewrite !Z.add_mod_idemp_l by lia. f_equal. lia.
Qed.

Lemma moore_count_shift (n a c : Z) (b : grid) (i j : Z) :
  0 < n → 0 <= i < n → 0 <= j < n →
  moore_count n (shift n a c b) i j
  = moore_count n b ((i + a) mod n) ((j + c) mod n).
Proof.
  intros Hn Hi Hj. unfold moore_count, shift.
  pose proof (mod_in_range n (i - 1) Hn). pose proof (mod_in_range n (i + 1) Hn).
  pose proof (mod_in_range n (j - 1) Hn). pose proof (mod_in_range n (j + 1) Hn).
  rewrite !cell_tabulate by done.
  change (i - 1) with (i + -1). change (j - 1) with (j + -1).
  change ((i + a) mod n - 1) with ((i + a) mod n + -1).
  change ((j + c) mod n - 1) with ((j + c) mod n + -1).
  by rewrite !(shift_index n i a), !(shift_index n j c) by done.
Qed.

Lemma pure_step_shift (n a c : Z) (b : grid) :
  0 < n → dims n b →
  pure_step n (shift n a c b) = shift n a c (pure_step n b).
Proof.
  intros Hn Hd. apply tabulate_ext.
  - apply pure_step_dims, tabulate_dims.
  - intros i j Hi Hj.
    pose proof (mod_in_range n (i + a) Hn). pose proof (mod_in_range n (j + c) Hn).
    rewrite !cell_pure_step by (done || apply tabulate_dims).
    unfold next_cell. rewrite moore_count_shift by done.
    unfold shift. by rewrite cell_tabulate.
Qed.

(** X5: the board has no edge and no origin: moving every cell by the same
    offsets (a, c), coordinates taken modulo the side, and then running a
    generation gives the same board as running the generation first and
    moving the cells afterwards. *)
Theorem step_commutes_with_shift (st : state) (a c : Z) :
  wf st →
  ∃ st1 st2,
    step st = Some st1
    ∧ step (with_board st (shift (sq st) a c (board st))) = Some st2
    ∧ board st2 = shift (sq st) a c (board st1).
Proof.
  intros Hwf. pose proof Hwf as [Hn Hb Hw Hbin].
  assert (0 < sq st) as Hpos by apply Hn.
  assert (wf (with_board st (shift (sq st) a c (board st)))) as Hwf'.
  { apply with_board_wf; [done|apply tabulate_dims|].
    apply (tabulate_wf_board (sq st) (board st)); [done..|].
    intros i j Hi Hj. eexists _, _. split_and!; [..|done]; by apply mod_in_range. }
  rewrite !step_pure_step by done. do 2 eexists. split_and!; [done..|].
  simpl. by apply pure_step_shift.
Qed.

(** X6: the working board is scratch space: what it holds before a
    generation has no influence on the outcome. *)
Theorem step_ignores_working_board (st : state) (bw : grid) :
  wf st → dims (sq st) bw → step (with_board_w st bw) = step st.
Proof.
  intros Hwf Hbw. pose proof Hwf as [Hn Hb Hw Hbin].
  assert (wf (with_board_w st bw)) as Hwf' by (by split).
  by rewrite !step_pure_step.
Qed.

(** ** Round trips through the board file *)

Lemma transpose_involutive (n : Z) (b : grid) :
  dims n b → transpose n (transpose n b) = b.
Proof.
  intros Hd. symmetry. apply tabulate_ext; [done|].
  intros i j Hi Hj. unfold transpose. by rewrite cell_tabulate.
Qed.

Lemma with_board_same (st : state) : with_board st (board st) = st.
Proof. by destruct st. Qed.

Lemma write_read_file (fname : string) (st st1 : state) (w : world) :
  size_ok (sq st) → dims (sq st) (board st) → binary (board st) →
  writable w = true → dims (sq st) (board st1) →
  ∃ w', write_board fname st w = Some w'
        ∧ writable w' = true
        ∧ read_board fname st1 w'
          = Some (with_board st1 (transpose (sq st) (board st))).
Proof.
  intros Hn Hd Hb Hw Hd1. rewrite write_board_render by done.
  eexists. split_and!; [done..|]. unfold read_board, store. simpl.
  rewrite lookup_insert_eq. simpl.
  by rewrite (read_chars_render (sq st)).
Qed.

(** X7: for every well-formed board and every file name, writing the
    board with [write_board] and reading the file back with [read_board]
    (into any board of the same side) gives the board with rows and
    columns exchanged; the two functions use opposite index orders. *)
Theorem write_then_read_transposes (fname : string) (st st1 : state) (w : world) :
  size_ok (sq st) → dims (sq st) (board st) → binary (board st) →
  writable w = true → dims (sq st) (board st1) →
  ∃ w', write_board fname st w = Some w'
        ∧ files w' !! fname = Some (render (board st))
        ∧ read_board fname st1 w'
          = Some (with_board st1 (transpose (sq st) (board st))).
Proof.
  intros Hn Hd Hb Hw Hd1.
  destruct (write_read_file fname st st1 w Hn Hd Hb Hw Hd1) as (w' & Hwr & _ & Hrd).
  exists w'. split_and!; [done| |done].
  rewrite write_board_render in Hwr by done. injection Hwr as <-.
  simpl. by rewrite lookup_insert_eq.
Qed.

(** X8: two round trips undo each other: write, read, write and read
    again, and the state is the one the first write started from. *)
Theorem two_round_trips_restore (fname : string) (st : state) (w : world) :
  size_ok (sq st) → dims (sq st) (board st) → binary (board st) →
  writable w = true →
  ∃ w1 st1 w2,
    write_board fname st w = Some w1
    ∧ read_board fname st w1 = Some st1
    ∧ write_board fname st1 w1 = Some w2
    ∧ read_board fname st1 w2 = Some st.
Proof.
  intros Hn Hd Hb Hw.
  destruct (write_read_file fname st st w Hn Hd Hb Hw Hd) as (w1 & Hwr1 & Hw1 & Hrd1).
  set (st1 := with_board st (transpose (sq st) (board st))) in *.
  assert (dims (sq st1) (board st1)) as Hd1 by apply tabulate_dims.
  assert (binary (board st1)) as Hb1 by (by apply transpose_binary).
  destruct (write_read_file fname st1 st1 w1 Hn Hd1 Hb1 Hw1 Hd1)
    as (w2 & Hwr2 & _ & Hrd2).
  exists w1, st1, w2. split_and!; [done..|].
  rewrite Hrd2. simpl. rewrite transpose_involutive by done.
  by destruct st.
Qed.

(** X9: a whole run on a well-formed board file, the boards being
    allocated: the file the program leaves holds the transpose of the G-th
    generation of the board the file held at the start, where the side and
    G are the arguments as [atoi] reads them (with G <= 0 the run just
    transposes the file). *)
Theorem main_transposes_file (prog a1 a2 : string) (w : world) (b : grid) :
  size_ok (atoi a1) → allocates w = true → writable w = true →
  dims (atoi a1) b → binary b →
  files w !! "board"%string = Some (render b) →
  ∃ w', main [prog; a1; a2] w = Some (0, w')
        ∧ files w' !! "board"%string
          = Some (render (transpose (atoi a1)
                            (Nat.iter (Z.to_nat (atoi a2)) (pure_step (atoi a1)) b))).
Proof.
  intros Hn Ha Hw Hd Hb Hfile.
  set (st0 := with_board (create_board (initial a1 a2)) (transpose (atoi a1) b)).
  assert (read_board "board" (create_board (initial a1 a2)) w = Some st0) as Hread.
  { unfold read_board. rewrite Hfile. simpl.
    rewrite (read_chars_render (atoi a1)); [done..|].
    apply (create_board_dims (initial a1 a2)). unfold size_ok in Hn. simpl. lia. }
  destruct (main_run prog a1 a2 w st0 Hn Ha Hw Hread)
    as (st' & w1 & _ & Hb' & _ & _ & _ & ->).
  eexists. split; [done|]. simpl. rewrite lookup_insert_eq. do 2 f_equal.
  rewrite Hb'. unfold board_after. simpl.
  apply iter_pure_step_transpose; [apply Hn|done].
Qed.

(** ** Files that do not fit the board *)

Lemma set_cell_Some_range (n : Z) (b b' : grid) (i j v : Z) :
  dims n b → set_cell b i j v = Some b' → 0 <= i < n ∧ 0 <= j < n.
Proof.
  intros [Hl Hr] H. unfold set_cell, row_at in H.
  destruct (Z.ltb_spec i 0); [done|].
  destruct (b !! Z.to_nat i) as [r|] eqn:Er; [|done]. simpl in H.
  destruct (Z.leb_spec 0 j); [|done].
  destruct (Z.ltb_spec j (Z.of_nat (length r))); [|done].
  apply lookup_lt_Some in Er as Hi.
  rewrite Forall_forall in Hr.
  rewrite (Hr r) in * by (by eapply list_elem_of_lookup_2). lia.
Qed.

Lemma read_chars_overlong (n : Z) (r : list Z) (rest : list ascii) (x0 y : Z) (B : grid) :
  n < 2 ^ 30 → dims n B → Forall (λ c, c = DEAD ∨ c = ALIVE) r →
  0 <= x0 <= n → n < x0 + Z.of_nat (length r) →
  read_chars ((symbol_of <$> r) ++ rest) x0 y B = None.
Proof.
  intros Hn. revert x0 B.
  induction r as [|c r IH]; intros x0 B Hd Hr Hx0 Hlen; simpl in Hlen; [lia|].
  apply Forall_cons in Hr as [Hc Hr].
  rewrite fmap_cons. cbn [app]. rewrite read_chars_symbol by done.
  destruct (set_cell B x0 y c) as [B1|] eqn:Hset; [|done].
  cbn [mbind option_bind].
  destruct (set_cell_Some_range n B B1 x0 y c Hd Hset) as [Hx _].
  rewrite add_small by lia.
  apply IH; [by eapply set_cell_keeps_dims|done|lia|lia].
Qed.

Lemma read_chars_lines_then (n : Z) (rows : grid) (rest : list ascii) (y0 : Z) (B : grid) :
  n < 2 ^ 30 → dims n B →
  Forall (λ r, length r = Z.to_nat n ∧ Forall (λ c, c = DEAD ∨ c = ALIVE) r) rows →
  0 <= y0 → y0 + Z.of_nat (length rows) <= n →
  ∃ B', read_chars (render rows ++ rest) 0 y0 B
        = read_chars rest 0 (y0 + Z.of_nat (length rows)) B'
        ∧ dims n B'.
Proof.
  intros Hn. revert y0 B.
  induction rows as [|r rows IH]; intros y0 B Hd Hrows Hy0 Hlen.
  - exists B. simpl. by rewrite Z.add_0_r.
  - apply Forall_cons in Hrows as [[Hlr Hr] Hrows]. simpl in Hlen.
    rewrite render_cons. rewrite <- app_assoc. cbn [app].
    destruct (read_chars_line n r (render rows ++ rest) 0 y0 B Hn Hd Hr)
      as (B1 & -> & Hd1 & _); [lia..|].
    destruct (IH (y0 + 1) B1 Hd1 Hrows) as (B' & -> & Hd'); [lia..|].
    exists B'. split; [|done]. f_equal. simpl length. lia.
Qed.

(** X10: [read_board] does not compare the file with the side of the
    board.  A first line with more than [sq] cell characters, or a cell
    character after [sq] complete lines, makes it store outside the
    board. *)
Theorem read_board_overruns (fname : string) (st : state) (w : world) :
  0 <= sq st < 2 ^ 30 → dims (sq st) (board st) →
  (∀ r rest,
     Forall (λ c, c = DEAD ∨ c = ALIVE) r → sq st < Z.of_nat (length r) →
     files w !! fname = Some ((symbol_of <$> r) ++ rest) →
     read_board fname st w = None)
  ∧ (∀ rows c rest,
       dims (sq st) rows → binary rows → c = DEAD ∨ c = ALIVE →
       files w !! fname = Some (render rows ++ symbol_of c :: rest) →
       read_board fname st w = None).
Proof.
  intros Hn Hd. split.
  - intros r rest Hr Hlen Hfile. unfold read_board. rewrite Hfile. simpl.
    rewrite (read_chars_overlong (sq st)); [done|lia|done..|lia|lia].
  - intros rows c rest [Hl Hrows] Hb Hc Hfile. unfold read_board.
    rewrite Hfile. simpl.
    destruct (read_chars_lines_then (sq st) rows (symbol_of c :: rest) 0 (board st))
      as (B' & -> & Hd'); [lia|done| |lia|lia|].
    { unfold binary in Hb. rewrite Forall_forall in Hrows, Hb.
      apply Forall_forall. intros r Hr. split; [by apply Hrows|by apply Hb]. }
    rewrite read_chars_symbol by done.
    destruct (set_cell B' 0 (0 + Z.of_nat (length rows)) c) as [B1|] eqn:Hset; [|done].
    apply (set_cell_Some_range (sq st)) in Hset; [lia|done].
Qed.

(** X11: characters other than '-' and '#' never change a cell: a file
    made of such characters only (digits, spaces, empty lines, an empty
    file) leaves the state as it was, whatever the side of the board. *)
Theorem read_board_skips_unknown (fname : string) (st : state) (w : world)
    (cs : list ascii) :
  files w !! fname = Some cs →
  Forall (λ ch, ch ≠ ch_dead ∧ ch ≠ ch_alive) cs →
  read_board fname st w = Some st.
Proof.
  intros Hfile Hcs. unfold read_board. rewrite Hfile. simpl.
  assert (∀ x y, read_chars cs x y (board st) = Some (board st)) as ->.
  { clear Hfile. induction Hcs as [|ch cs [Hd Ha] _ IH]; intros x y; simpl; [done|].
    apply Ascii.eqb_neq in Hd, Ha. rewrite Hd, Ha.
    destruct (Ascii.eqb ch (ascii_of_nat 255)); [done|].
    destruct (Ascii.eqb ch nl); [apply IH|]. simpl. apply IH. }
  simpl. by rewrite with_board_same.
Qed.

(** ** A board file that cannot be written *)

Lemma loop_board_unwritable (st0 : state) (w0 : world) :
  wf st0 → writable w0 = false →
  ∃ sw, loop_board st0 w0 = Some sw ∧ after_failed st0 w0 (seqZ 0 (g st0)) sw.
Proof.
  intros Hwf Hw. unfold loop_board, for_int.
  apply (run_over_inv (after_failed st0 w0)).
  - unfold after_failed. simpl. split_and!; try done. by rewrite app_nil_r.
  - intros pre x [s w] _ (Hs & Hsq & Hg & Hb & Hwr & Hf & Htr). simpl in *.
    unfold generation. simpl. rewrite step_pure_step by done. simpl.
    unfold write_board. simpl. rewrite Hwr.
    eexists. split; [done|]. unfold after_failed. simpl.
    split_and!; try done.
    + eapply step_wf; [done|by apply step_pure_step].
    + rewrite length_app, Nat.add_1_r. unfold board_after in *. simpl.
      by rewrite Hsq, Hb.
    + rewrite Htr, bind_app, bind_singleton. unfold failed_write, open_error.
      by rewrite <- !app_assoc.
Qed.

(** X12: when the board file cannot be opened for writing, nothing stops
    the run (the boards being allocated and the file loaded): it performs
    every generation, as many as [atoi] reads from the second argument,
    prints the error message once per generation and once at the end,
    changes no file and still returns 0. *)
Theorem main_unwritable (prog a1 a2 : string) (w : world) (st0 : state) :
  size_ok (atoi a1) → allocates w = true → writable w = false →
  read_board "board" (create_board (initial a1 a2)) w = Some st0 →
  ∃ st' w1 w',
    loop_board st0 w = Some (st', w1)
    ∧ board st' = Nat.iter (Z.to_nat (atoi a2)) (pure_step (atoi a1)) (board st0)
    ∧ main [prog; a1; a2] w = Some (0, w')
    ∧ files w' = files w
    ∧ trace w'
      = trace w ++ (seqZ 0 (atoi a2) ≫= λ _, [ESleep 0; EPrint (open_error "board")])
        ++ [EPrint (open_error "board")].
Proof.
  intros Hn Ha Hw Hread.
  destruct (read_board_wf "board" (initial a1 a2) st0 w Hn Hread) as (Hwf & Hsq & Hg).
  simpl in Hsq, Hg.
  destruct (loop_board_unwritable st0 w Hwf Hw)
    as ([st' w1] & Hloop & _ & _ & _ & Hb & Hwr & Hf & Htr).
  simpl in *. rewrite Hg in *.
  exists st', w1, (emit (EPrint (open_error "board")) w1).
  split_and!; try done.
  - rewrite Hb. unfold board_after. by rewrite length_seqZ, Hsq.
  - unfold main. rewrite alloc_boards_ok by done. cbn [mbind option_bind].
    rewrite Hread. simpl. rewrite Hloop. simpl.
    unfold write_board. simpl. by rewrite Hwr.
  - simpl. rewrite Htr. by rewrite <- app_assoc.
Qed.

(** ** Single cell writes *)

Lemma set_cell_is_Some (n : Z) (b : grid) (i j v : Z) :
  dims n b → is_Some (set_cell b i j v) ↔ 0 <= i < n ∧ 0 <= j < n.
Proof.
  intros Hd. split.
  - intros [b' H]. by eapply set_cell_Some_range.
  - intros [Hi Hj]. destruct (set_cell_dims n b i j v Hd Hi Hj) as (b' & -> & _).
    by eexists.
Qed.

Lemma set_cell_twice (b : grid) (i j v v' : Z) :
  set_cell b i j v ≫= (λ b', set_cell b' i j v') = set_cell b i j v'.
Proof.
  unfold set_cell, row_at. destruct (Z.ltb_spec i 0); [done|].
  destruct (b !! Z.to_nat i) as [r|] eqn:Er; [|done]. simpl.
  destruct ((0 <=? j) && (j <? Z.of_nat (length r))) eqn:Hj; [|done]. simpl.
  destruct (Z.ltb_spec i 0); [lia|].
  apply lookup_lt_Some in Er as Hi.
  rewrite list_lookup_insert_eq by done. simpl.
  rewrite length_insert, Hj.
  by rewrite !list_insert_insert_eq.
Qed.

(** X13: [kill_cell] and [produce_cell] succeed exactly on the cells of the
    board; they set that one cell of [board] and change nothing else (no
    other cell, not [board_w], [sq] or [g]); and of two writes to the same
    cell the later one decides. *)
Theorem cell_writes_frame (st : state) (i j : Z) :
  dims (sq st) (board st) →
  (is_Some (kill_cell i j st) ↔ 0 <= i < sq st ∧ 0 <= j < sq st)
  ∧ (is_Some (produce_cell i j st) ↔ 0 <= i < sq st ∧ 0 <= j < sq st)
  ∧ (∀ st', kill_cell i j st = Some st' →
       board_w st' = board_w st ∧ sq st' = sq st ∧ g st' = g st
       ∧ ∀ i' j', cell_at (board st') i' j'
                  = if decide (i' = i ∧ j' = j) then Some DEAD
                    else cell_at (board st) i' j')
  ∧ (∀ st', produce_cell i j st = Some st' →
       board_w st' = board_w st ∧ sq st' = sq st ∧ g st' = g st
       ∧ ∀ i' j', cell_at (board st') i' j'
                  = if decide (i' = i ∧ j' = j) then Some ALIVE
                    else cell_at (board st) i' j')
  ∧ kill_cell i j st ≫= produce_cell i j = produce_cell i j st
  ∧ produce_cell i j st ≫= kill_cell i j = kill_cell i j st.
Proof.
  intros Hd. unfold kill_cell, produce_cell. split_and!.
  - rewrite <- (set_cell_is_Some (sq st) (board st) i j DEAD Hd).
    destruct (set_cell (board st) i j DEAD); simpl; split; intros [? ?]; by eauto.
  - rewrite <- (set_cell_is_Some (sq st) (board st) i j ALIVE Hd).
    destruct (set_cell (board st) i j ALIVE); simpl; split; intros [? ?]; by eauto.
  - intros st' H. destruct (set_cell (board st) i j DEAD) as [b'|] eqn:E; [|done].
    injection H as <-. split_and!; try done. intros i' j'.
    by apply cell_at_set_cell.
  - intros st' H. destruct (set_cell (board st) i j ALIVE) as [b'|] eqn:E; [|done].
    injection H as <-. split_and!; try done. intros i' j'.
    by apply cell_at_set_cell.
  - rewrite <- (set_cell_twice (board st) i j DEAD ALIVE).
    destruct (set_cell (board st) i j DEAD) as [b'|]; [|done]. simpl.
    by destruct (set_cell b' i j ALIVE).
  - rewrite <- (set_cell_twice (board st) i j ALIVE DEAD).
    destruct (set_cell (board st) i j ALIVE) as [b'|]; [|done]. simpl.
    by destruct (set_cell b' i j DEAD).
Qed.

(** ** [copy_board] at and outside its precondition *)

Lemma run_over_fails {S A : Type} (P : S → Prop) (body : A → S → option S)
    (l : list A) (x : A) (s : S) :
  x ∈ l → P s →
  (∀ y s s', body y s = Some s' → P s → P s') →
  (∀ s, P s → body x s = None) →
  run_over body l s = None.
Proof.
  intros Hin HP Hpres Hfail. revert s HP.
  induction l as [|y l IH]; intros s HP; [by apply elem_of_nil in Hin|].
  simpl. destruct (body y s) as [s'|] eqn:E; [|done]. simpl.
  apply elem_of_cons in Hin as [->|Hin].
  - rewrite Hfail in E; done.
  - apply IH; [done|]. by eapply Hpres.
Qed.

Lemma copy_row_length (n : Z) (src : grid) (i : Z) (d d' : grid) :
  copy_row n src i d = Some d' → length d' = length d.
Proof.
  unfold copy_row. intros H.
  destruct (row_at d i); [|done]. destruct (row_at src i); [|done]. simpl in H.
  destruct (memcpy_row _ _ _); [|done]. injection H as <-.
  by rewrite length_insert.
Qed.

Lemma row_at_beyond (b : grid) : row_at b (Z.of_nat (length b)) = None.
Proof.
  unfold row_at. destruct (Z.ltb_spec (Z.of_nat (length b)) 0); [done|].
  apply lookup_ge_None_2. lia.
Qed.

(** X14: [copy_board] between two boards of the side [n] makes the
    destination equal to the source, whatever it held; for [n <= 0] it
    leaves the destination alone; and when one of the two boards has fewer
    than [n] rows it runs off the end of the shorter one. *)
Theorem copy_board_cases (n : Z) (src dst : grid) :
  (dims n src → dims n dst → copy_board n src dst = Some src)
  ∧ (n <= 0 → copy_board n src dst = Some dst)
  ∧ (Z.of_nat (length dst) < n ∨ Z.of_nat (length src) < n →
     copy_board n src dst = None).
Proof.
  split_and!.
  - apply copy_board_dims.
  - intros Hn. unfold copy_board, for_int. by rewrite seqZ_nil.
  - intros Hshort. unfold copy_board, for_int.
    destruct Hshort as [Hshort|Hshort].
    + apply (run_over_fails (λ d, length d = length dst) _ _ (Z.of_nat (length dst)));
        [apply elem_of_seqZ; lia|done| |].
      * intros y d d' Hy Hd. rewrite <- Hd. by eapply copy_row_length.
      * intros d Hd. unfold copy_row. by rewrite <- Hd, row_at_beyond.
    + apply (run_over_fails (λ _, True) _ _ (Z.of_nat (length src)));
        [apply elem_of_seqZ; lia|done|done|].
      intros d _. unfold copy_row. rewrite row_at_beyond.
      by destruct (row_at d _).
Qed.

(** ** The layout of the board file *)

Lemma lookup_bind_uniform {A B : Type} (f : A → list B) (l : list A) (m i j : nat) :
  (∀ x, x ∈ l → length (f x) = m) → (j < m)%nat →
  (l ≫= f) !! (i * m + j)%nat = l !! i ≫= (λ x, f x !! j).
Proof.
  intros Hlen Hj. revert i. induction l as [|x l IH]; intros i; [done|].
  rewrite bind_cons.
  assert (length (f x) = m) as Hx by (apply Hlen; left).
  destruct i as [|i]; simpl.
  - rewrite lookup_app_l by lia. done.
  - rewrite lookup_app_r by lia.
    replace (m + i * m + j - length (f x))%nat with (i * m + j)%nat by lia.
    apply IH. intros y Hy. apply Hlen. by right.
Qed.

Lemma length_bind_uniform {A B : Type} (f : A → list B) (l : list A) (m : nat) :
  (∀ x, x ∈ l → length (f x) = m) → length (l ≫= f) = (length l * m)%nat.
Proof.
  intros Hlen. induction l as [|x l IH]; [done|].
  rewrite bind_cons, length_app, Hlen by left. simpl.
  rewrite IH; [done|]. intros y Hy. apply Hlen. by right.
Qed.

(** X16: the file [write_board] writes for a well-formed board of side
    [n]: [n] * ([n] + 1) characters; the character at position
    i * (n + 1) + j is '#' when cell (i, j) is ALIVE and '-' when it is
    DEAD, and every line ends with a newline at position i * (n + 1) + n. *)
Theorem write_board_layout (fname : string) (st : state) (w : world) :
  0 <= sq st → dims (sq st) (board st) → binary (board st) →
  writable w = true →
  let n := sq st in
  ∃ text,
    write_board fname st w = Some (store fname text w)
    ∧ Z.of_nat (length text) = n * (n + 1)
    ∧ ∀ i, 0 <= i < n →
        text !! Z.to_nat (i * (n + 1) + n) = Some nl
        ∧ ∀ j, 0 <= j < n →
            text !! Z.to_nat (i * (n + 1) + j)
            = Some (if cell (board st) i j =? ALIVE then ch_alive else ch_dead).
Proof.
  intros Hn Hd Hb Hw n. exists (render (board st)).
  split; [by apply write_board_render|].
  set (line := λ i : Z, ((λ j, symbol_of (cell (board st) i j)) <$> seqZ 0 n) ++ [nl]).
  assert (render (board st) = seqZ 0 n ≫= line) as ->.
  { rewrite (tabulate_cells (sq st) (board st) Hd) at 1. apply render_tabulate. }
  assert (∀ i, i ∈ seqZ 0 n → length (line i) = Z.to_nat (n + 1)) as Hline.
  { intros i _. unfold line. rewrite length_app, length_fmap, length_seqZ. simpl. lia. }
  split.
  - rewrite (length_bind_uniform line _ (Z.to_nat (n + 1))) by done.
    rewrite length_seqZ. nia.
  - intros i Hi.
    assert (∀ j, 0 <= j <= n →
              (seqZ 0 n ≫= line) !! Z.to_nat (i * (n + 1) + j)
              = line i !! Z.to_nat j) as Hat.
    { intros j Hj.
      replace (Z.to_nat (i * (n + 1) + j))
        with (Z.to_nat i * Z.to_nat (n + 1) + Z.to_nat j)%nat by nia.
      rewrite (lookup_bind_uniform line) by (done || lia).
      rewrite lookup_seqZ_lt by lia. simpl. by rewrite Z2Nat.id by lia. }
    split.
    + rewrite Hat by lia. unfold line.
      rewrite lookup_app_r by (rewrite length_fmap, length_seqZ; lia).
      rewrite length_fmap, length_seqZ. by rewrite Nat.sub_diag.
    + intros j Hj. rewrite Hat by lia. unfold line.
      rewrite lookup_app_l by (rewrite length_fmap, length_seqZ; lia).
      rewrite list_lookup_fmap, lookup_seqZ_lt by lia. simpl.
      by rewrite Z2Nat.id by lia.
Qed.

(** ** [print_board] *)

Lemma stdout_emit_print (tr : list event) (s : string) :
  stdout (tr ++ [EPrint s]) = stdout tr ++ list_ascii_of_string s.
Proof. unfold stdout. by rewrite bind_app, bind_singleton. Qed.

Lemma print_row_text (n : Z) (b : grid) (i : Z) (w : world) :
  dims n b → binary b → 0 <= i < n →
  ∃ w', print_row n b i w = Some w'
        ∧ files w' = files w
        ∧ stdout (trace w')
          = stdout (trace w)
            ++ (digit_of_symbol <$>
                  ((λ j, symbol_of (cell b i j)) <$> seqZ 0 n) ++ [nl]).
Proof.
  intros Hd Hb Hi. unfold print_row, for_int.
  destruct (run_over_inv
    (λ pre a, files a = files w
              ∧ stdout (trace a)
                = stdout (trace w)
                  ++ (digit_of_symbol <$> ((λ j, symbol_of (cell b i j)) <$> pre)))
    (print_cell b i) (seqZ 0 n) w) as (a & -> & Hf & Ha).
  - split; [done|]. by rewrite app_nil_r.
  - intros pre j a Hj%elem_of_seqZ [Hf Ha]. unfold print_cell.
    rewrite (cell_at_dims n b) by (done || lia). simpl.
    eexists. split; [done|]. split; [done|]. simpl.
    rewrite stdout_emit_print, Ha, !fmap_app, <- app_assoc. f_equal. simpl.
    destruct (cell_binary n b i j) as [E|E]; [done|done|lia|lia|..]; by rewrite E.
  - simpl. eexists. split; [done|]. split; [done|]. simpl.
    rewrite stdout_emit_print, Ha, fmap_app, <- app_assoc. done.
Qed.

(** X17: [print_board] of a well-formed board writes no file and sends to
    the standard output the text [write_board] would put in the board
    file, with 1 in the place of '#' and 0 in the place of '-'. *)
Theorem print_board_text (st : state) (w : world) :
  dims (sq st) (board st) → binary (board st) →
  ∃ w', print_board (board st) st w = Some w'
        ∧ files w' = files w
        ∧ stdout (trace w')
          = stdout (trace w) ++ (digit_of_symbol <$> render (board st)).
Proof.
  intros Hd Hb. unfold print_board, for_int.
  destruct (run_over_inv
    (λ pre a, files a = files w
              ∧ stdout (trace a)
                = stdout (trace w)
                  ++ (digit_of_symbol <$>
                        (i ← pre; ((λ j, symbol_of (cell (board st) i j))
                                     <$> seqZ 0 (sq st)) ++ [nl])))
    (print_row (sq st) (board st)) (seqZ 0 (sq st)) w) as (a & -> & Hf & Ha).
  - split; [done|]. by rewrite app_nil_r.
  - intros pre i a Hi%elem_of_seqZ [Hf Ha].
    destruct (print_row_text (sq st) (board st) i a Hd Hb) as (a' & -> & Hf' & Ha');
      [lia|].
    exists a'. split; [done|]. split; [congruence|].
    rewrite Ha', Ha, bind_app, bind_singleton, !fmap_app, <- !app_assoc. done.
  - exists a. split; [done|]. split; [done|]. rewrite Ha. do 2 f_equal.
    rewrite <- (render_tabulate (sq st) (cell (board st))).
    by rewrite <- tabulate_cells.
Qed.

(** ** The further properties on concrete boards *)

Lemma dead_board_stays_dead_witness :
  wf (create_board (loaded 3 0 []))
  ∧ (∀ i j, 0 <= i < 3 → 0 <= j < 3 →
       cell (board (create_board (loaded 3 0 []))) i j = DEAD)
  ∧ ∃ st', steps 2 (create_board (loaded 3 0 [])) = Some st'
           ∧ board st' = board (create_board (loaded 3 0 [])).
Proof.
  assert (wf (create_board (loaded 3 0 []))) as Hwf by (by apply wfb_spec).
  assert (∀ i j, 0 <= i < 3 → 0 <= j < 3 →
            cell (board (create_board (loaded 3 0 []))) i j = DEAD) as Hdead.
  { intros i j Hi Hj.
    assert (i = 0 ∨ i = 1 ∨ i = 2) as [-> | [-> | ->]] by lia;
      assert (j = 0 ∨ j = 1 ∨ j = 2) as [-> | [-> | ->]] by lia; reflexivity. }
  split_and!; [assumption..|].
  exact (dead_board_stays_dead (create_board (loaded 3 0 [])) 2 Hwf Hdead).
Defined.

Lemma full_board_dies_witness :
  wf (loaded 3 1 full3)
  ∧ ∃ st', step (loaded 3 1 full3) = Some st'
           ∧ count_neighbors (snapshot (loaded 3 1 full3)) 1 1 = Some 8
           ∧ cell (board st') 1 1 = DEAD.
Proof.
  assert (wf (loaded 3 1 full3)) as Hwf by (by apply wfb_spec).
  split; [assumption|].
  destruct (full_board_dies (loaded 3 1 full3) Hwf) as (st' & H1 & H2 & H3).
  { intros i j Hi Hj. simpl in Hi, Hj.
    assert (i = 0 ∨ i = 1 ∨ i = 2) as [-> | [-> | ->]] by lia;
      assert (j = 0 ∨ j = 1 ∨ j = 2) as [-> | [-> | ->]] by lia; reflexivity. }
  exists st'. split_and!; [exact H1|apply H2; simpl; lia|apply H3; simpl; lia].
Defined.

Lemma small_board_no_birth_witness :
  wf (loaded 2 1 skew2) ∧ 2 <= 2 ∧ 0 <= 0 < 2
  ∧ ∃ st' k, step (loaded 2 1 skew2) = Some st'
             ∧ count_neighbors (snapshot (loaded 2 1 skew2)) 0 0 = Some (2 * k)
             ∧ (cell (board st') 0 0 = ALIVE → cell skew2 0 0 = ALIVE).
Proof.
  assert (wf (loaded 2 1 skew2)) as Hwf by (by apply wfb_spec).
  split_and!; [assumption|lia..|].
  apply (small_board_no_birth (loaded 2 1 skew2) 0 0 Hwf); simpl; lia.
Defined.

Lemma step_commutes_with_transpose_witness :
  wf (loaded 5 1 blinker5)
  ∧ ∃ st1 st2,
      step (loaded 5 1 blinker5) = Some st1
      ∧ step (with_board (loaded 5 1 blinker5) (transpose 5 blinker5)) = Some st2
      ∧ board st2 = transpose 5 (board st1).
Proof.
  assert (wf (loaded 5 1 blinker5)) as Hwf by (by apply wfb_spec).
  split; [assumption|].
  exact (step_commutes_with_transpose (loaded 5 1 blinker5) Hwf).
Defined.

Lemma step_commutes_with_shift_witness :
  wf (loaded 5 1 blinker5)
  ∧ ∃ st1 st2,
      step (loaded 5 1 blinker5) = Some st1
      ∧ step (with_board (loaded 5 1 blinker5) (shift 5 1 2 blinker5)) = Some st2
      ∧ board st2 = shift 5 1 2 (board st1).
Proof.
  assert (wf (loaded 5 1 blinker5)) as Hwf by (by apply wfb_spec).
  split; [assumption|].
  exact (step_commutes_with_shift (loaded 5 1 blinker5) 1 2 Hwf).
Defined.

Lemma step_ignores_working_board_witness :
  wf (loaded 3 1 blinker3) ∧ dims 3 full3
  ∧ step (with_board_w (loaded 3 1 blinker3) full3) = step (loaded 3 1 blinker3).
Proof.
  assert (wf (loaded 3 1 blinker3)) as Hwf by (by apply wfb_spec).
  assert (dims 3 full3) as Hd by (by apply dimsb_spec).
  split_and!; [assumption..|].
  exact (step_ignores_working_board (loaded 3 1 blinker3) full3 Hwf Hd).
Defined.

Lemma write_then_read_transposes_witness :
  size_ok 2 ∧ dims 2 skew2 ∧ binary skew2 ∧ writable (world_with []) = true
  ∧ ∃ w', write_board "board" (loaded 2 0 skew2) (world_with []) = Some w'
          ∧ files w' !! "board"%string = Some (render skew2)
          ∧ read_board "board" (loaded 2 0 skew2) w'
            = Some (with_board (loaded 2 0 skew2) (transpose 2 skew2)).
Proof.
  assert (size_ok 2) as Hn by (unfold size_ok; lia).
  assert (dims 2 skew2) as Hd by (by apply dimsb_spec).
  assert (binary skew2) as Hb by (by apply binaryb_spec).
  split_and!; [assumption|assumption|assumption|reflexivity|].
  exact (write_then_read_transposes "board" (loaded 2 0 skew2) (loaded 2 0 skew2)
           (world_with []) Hn Hd Hb eq_refl Hd).
Defined.

Lemma two_round_trips_restore_witness :
  size_ok 2 ∧ dims 2 skew2 ∧ binary skew2 ∧ writable (world_with []) = true
  ∧ ∃ w1 st1 w2,
      write_board "board" (loaded 2 0 skew2) (world_with []) = Some w1
      ∧ read_board "board" (loaded 2 0 skew2) w1 = Some st1
      ∧ write_board "board" st1 w1 = Some w2
      ∧ read_board "board" st1 w2 = Some (loaded 2 0 skew2).
Proof.
  assert (size_ok 2) as Hn by (unfold size_ok; lia).
  assert (dims 2 skew2) as Hd by (by apply dimsb_spec).
  assert (binary skew2) as Hb by (by apply binaryb_spec).
  split_and!; [assumption|assumption|assumption|reflexivity|].
  exact (two_round_trips_restore "board" (loaded 2 0 skew2) (world_with [])
           Hn Hd Hb eq_refl).
Defined.

Lemma main_transposes_file_witness :
  size_ok (atoi "5") ∧ allocates (world_with (render blinker5)) = true
  ∧ writable (world_with (render blinker5)) = true
  ∧ dims (atoi "5") blinker5 ∧ binary blinker5
  ∧ ∃ w', main ["./main.o"; "5"; "2"]%string (world_with (render blinker5))
          = Some (0, w')
          ∧ files w' !! "board"%string
            = Some (render (transpose (atoi "5")
                              (Nat.iter (Z.to_nat (atoi "2")) (pure_step (atoi "5"))
                                 blinker5))).
Proof.
  assert (size_ok (atoi "5")) as Hn by (by vm_compute).
  assert (dims (atoi "5") blinker5) as Hd by (by apply dimsb_spec).
  assert (binary blinker5) as Hb by (by apply binaryb_spec).
  split_and!; [assumption|reflexivity|reflexivity|assumption|assumption|].
  exact (main_transposes_file "./main.o" "5" "2" (world_with (render blinker5))
           blinker5 Hn eq_refl eq_refl Hd Hb eq_refl).
Defined.

Lemma read_board_overruns_witness :
  0 <= 2 < 2 ^ 30 ∧ dims 2 skew2
  ∧ read_board "board" (loaded 2 0 skew2) (world_with (symbol_of <$> [0; 1; 0])) = None
  ∧ read_board "board" (loaded 2 0 skew2) (world_with (render skew2 ++ [symbol_of 1]))
    = None.
Proof.
  assert (0 <= 2 < 2 ^ 30) as Hn by lia.
  assert (dims 2 skew2) as Hd by (by apply dimsb_spec).
  assert (binary skew2) as Hb by (by apply binaryb_spec).
  split_and!; [lia|lia|assumption|..].
  - destruct (read_board_overruns "board" (loaded 2 0 skew2)
                (world_with (symbol_of <$> [0; 1; 0])) Hn Hd) as [Hline _].
    apply (Hline [0; 1; 0] []).
    + repeat apply Forall_cons_2; [by left|by right|by left|apply Forall_nil_2].
    + simpl. lia.
    + reflexivity.
  - destruct (read_board_overruns "board" (loaded 2 0 skew2)
                (world_with (render skew2 ++ [symbol_of 1])) Hn Hd) as [_ Hlines].
    apply (Hlines skew2 1 []); [assumption|assumption|by right|reflexivity].
Defined.

Lemma read_board_skips_unknown_witness :
  files (world_with (digit_of_symbol <$> render skew2)) !! "board"%string
  = Some (digit_of_symbol <$> render skew2)
  ∧ read_board "board" (create_board (loaded 2 0 []))
      (world_with (digit_of_symbol <$> render skew2))
    = Some (create_board (loaded 2 0 [])).
Proof.
  split; [reflexivity|].
  apply (read_board_skips_unknown "board" (create_board (loaded 2 0 []))
           (world_with (digit_of_symbol <$> render skew2))
           (digit_of_symbol <$> render skew2)); [reflexivity|].
  vm_compute. repeat apply Forall_cons_2; try apply Forall_nil_2; split; discriminate.
Defined.

Lemma main_unwritable_witness :
  size_ok (atoi "5") ∧ allocates (world_readonly (render blinker5)) = true
  ∧ writable (world_readonly (render blinker5)) = false
  ∧ read_board "board" (create_board (initial "5" "2")) (world_readonly (render blinker5))
    = Some (loaded 5 2 column5)
  ∧ ∃ w', main ["./main.o"; "5"; "2"]%string (world_readonly (render blinker5))
          = Some (0, w')
          ∧ files w' = files (world_readonly (render blinker5))
          ∧ trace w'
            = [ESleep 0; EPrint (open_error "board");
               ESleep 0; EPrint (open_error "board");
               EPrint (open_error "board")].
Proof.
  assert (size_ok (atoi "5")) as Hn by (by vm_compute).
  assert (read_board "board" (create_board (initial "5" "2"))
            (world_readonly (render blinker5)) = Some (loaded 5 2 column5)) as Hread
    by (by vm_compute).
  split_and!; [assumption|reflexivity|reflexivity|assumption|].
  destruct (main_unwritable "./main.o" "5" "2" (world_readonly (render blinker5))
              (loaded 5 2 column5) Hn eq_refl eq_refl Hread)
    as (st' & w1 & w' & _ & _ & H3 & H4 & H5).
  exists w'. split_and!; [exact H3|exact H4|exact H5].
Defined.

Lemma cell_writes_frame_witness :
  dims 3 blinker3
  ∧ is_Some (kill_cell 1 1 (loaded 3 1 blinker3))
  ∧ ¬ is_Some (produce_cell 1 3 (loaded 3 1 blinker3))
  ∧ kill_cell 1 1 (loaded 3 1 blinker3) ≫= produce_cell 1 1
    = produce_cell 1 1 (loaded 3 1 blinker3).
Proof.
  assert (dims 3 blinker3) as Hd by (by apply dimsb_spec).
  destruct (cell_writes_frame (loaded 3 1 blinker3) 1 1 Hd)
    as (Hk & _ & _ & _ & Hkp & _).
  destruct (cell_writes_frame (loaded 3 1 blinker3) 1 3 Hd)
    as (_ & Hp & _).
  split_and!; [assumption| |
    |exact Hkp].
  - apply Hk. simpl. lia.
  - intros H. apply Hp in H. simpl in H. lia.
Defined.

Lemma copy_board_cases_witness :
  dims 3 blinker3 ∧ dims 3 full3
  ∧ copy_board 3 blinker3 full3 = Some blinker3
  ∧ copy_board 0 blinker3 full3 = Some full3
  ∧ copy_board 3 blinker3 skew2 = None.
Proof.
  assert (dims 3 blinker3) as Hs by (by apply dimsb_spec).
  assert (dims 3 full3) as Hd by (by apply dimsb_spec).
  split_and!; [assumption|assumption|..].
  - by apply (copy_board_cases 3 blinker3 full3).
  - apply (copy_board_cases 0 blinker3 full3). lia.
  - apply (copy_board_cases 3 blinker3 skew2). left. simpl. lia.
Defined.

Lemma write_board_layout_witness :
  0 <= 2 ∧ dims 2 skew2 ∧ binary skew2 ∧ writable (world_with []) = true
  ∧ ∃ text,
      write_board "board" (loaded 2 0 skew2) (world_with [])
      = Some (store "board" text (world_with []))
      ∧ Z.of_nat (length text) = 2 * (2 + 1)
      ∧ text !! Z.to_nat (0 * (2 + 1) + 1) = Some ch_alive
      ∧ text !! Z.to_nat (1 * (2 + 1) + 2) = Some nl.
Proof.
  assert (dims 2 skew2) as Hd by (by apply dimsb_spec).
  assert (binary skew2) as Hb by (by apply binaryb_spec).
  split_and!; [lia|assumption|assumption|reflexivity|].
  destruct (write_board_layout "board" (loaded 2 0 skew2) (world_with [])
              ltac:(simpl; lia) Hd Hb eq_refl) as (text & H1 & H2 & H3).
  exists text. split_and!; [exact H1|exact H2|..].
  - destruct (H3 0 ltac:(simpl; lia)) as [_ H]. exact (H 1 ltac:(simpl; lia)).
  - destruct (H3 1 ltac:(simpl; lia)) as [H _]. exact H.
Defined.

Lemma print_board_text_witness :
  dims 2 skew2 ∧ binary skew2
  ∧ ∃ w', print_board skew2 (loaded 2 0 skew2) (world_with []) = Some w'
          ∧ files w' = files (world_with [])
          ∧ stdout (trace w') = ["0"; "1"; nl; "0"; "0"; nl]%char.
Proof.
  assert (dims 2 skew2) as Hd by (by apply dimsb_spec).
  assert (binary skew2) as Hb by (by apply binaryb_spec).
  split_and!; [assumption|assumption|].
  exact (print_board_text (loaded 2 0 skew2) (world_with []) Hd Hb).
Defined.
